(** * base-boss: the umpire assignment and reconciliation engine

    A shallow embedding of the parts of the application that decide how a
    game moves through its life cycle:

    - the relational schema and its row-level-security policies
      ([supabase/migrations/*.sql]), as a [store] with guarded insert and
      update operations;
    - the umpire dashboard ([calculateDistance], [checkDoubleBooking],
      [handleAcceptGame], [filteredGames]);
    - the coach dialogs ([RequestUmpireDialog], [RateUmpireDialog],
      [PastGamesNotificationDialog], [PastPendingGamesDialog]) and the
      coach dashboard's [canEditRating];
    - the staff bulk import ([BulkUploadGamesDialog]).

    Instants are milliseconds since the epoch in [Z], as [Date.getTime]
    returns them.  JavaScript numbers that carry coordinates and distances
    are read as real numbers ([R]); the trigonometry of [calculateDistance]
    is the one of the Standard Library's [Reals], so rounding is left out.

    A handler is a function from the store, the signed-in user and the
    state of its form to the new store and the notice it shows.  The store
    follows PostgreSQL: a statement is checked against the permissive
    policies of its table (rows an [UPDATE] may not touch are skipped in
    silence, a new row that fails [WITH CHECK] raises), then against the
    [CHECK] constraint, then against the unique index.  [auth.users] is
    not modelled: references to it are taken to hold. *)

From Stdlib Require Import ZArith QArith List String Ascii Bool Lia.
From Stdlib Require Import DecimalString.
From Stdlib Require Import Permutation Sorted.
From Stdlib Require Import Reals Lra.
Import ListNotations.

Local Open Scope string_scope.
Local Open Scope Z_scope.

(** ** Identities, enumerations and errors *)

(** Row identities.  [gen_random_uuid()] is modelled by a counter kept in
    the store. *)
Definition uuid := Z.

(** [CREATE TYPE public.game_status AS ENUM (...)] *)
Inductive game_status : Set :=
| pending
| assigned
| completed
| cancelled.

(** [CREATE TYPE public.request_status AS ENUM (...)] *)
Inductive request_status : Set :=
| request_pending
| request_accepted
| request_rejected.

(** The [app_role] values the policies and pages mention. *)
Inductive app_role : Set :=
| coach
| umpire
| employee
| admin.

Definition game_status_eqb (a b : game_status) : bool :=
  match a, b with
  | pending, pending | assigned, assigned
  | completed, completed | cancelled, cancelled => true
  | _, _ => false
  end.

Definition app_role_eqb (a b : app_role) : bool :=
  match a, b with
  | coach, coach | umpire, umpire | employee, employee | admin, admin => true
  | _, _ => false
  end.

(** Errors a statement can come back with; [code] is the SQLSTATE the
    client reads in [error.code]. *)
Inductive pg_error : Set :=
| unique_violation
| check_violation
| foreign_key_violation
| insufficient_privilege.

Definition code (e : pg_error) : string :=
  match e with
  | unique_violation => "23505"
  | check_violation => "23514"
  | foreign_key_violation => "23503"
  | insufficient_privilege => "42501"
  end.

Definition message (e : pg_error) : string :=
  match e with
  | unique_violation => "duplicate key value violates unique constraint"
  | check_violation => "new row violates check constraint"
  | foreign_key_violation => "insert or update violates foreign key constraint"
  | insufficient_privilege => "new row violates row-level security policy"
  end.

(** What a handler shows to the user ([toast.success], [toast.error],
    [toast.warning]); [no_toast] is a handler that returns early. *)
Inductive toast : Set :=
| toast_success (msg : string)
| toast_error (msg : string)
| toast_warning (msg : string)
| no_toast.

(** JavaScript truthiness of a [number | null]: [null] and [0] are falsy. *)
Definition truthy_number (x : option R) : bool :=
  match x with
  | Some v => if Req_dec_T v 0%R then false else true
  | None => false
  end.

Definition is_some {A : Type} (x : option A) : bool :=
  match x with Some _ => true | None => false end.

(** ** The relational store *)

Module Schema.

(** [public.games], with the [latitude]/[longitude] columns the second
    part of the first migration adds. *)
Record game_row : Type := mk_game {
  id : uuid;
  coach_id : uuid;
  game_date : Z;
  location : string;
  opponent : string;
  status : game_status;
  assigned_umpire_id : option uuid;
  latitude : option R;
  longitude : option R
}.

(** [public.umpire_requests] *)
Record request_row : Type := mk_request {
  request_id : uuid;
  request_game_id : uuid;
  request_coach_id : uuid;
  request_state : request_status
}.

(** [public.ratings] *)
Record rating_row : Type := mk_rating {
  rating_id : uuid;
  rating_game_id : uuid;
  rating_coach_id : uuid;
  rating_umpire_id : uuid;
  rating : Z;
  comment : option string;
  created_at : Z
}.

(** [public.external_umpire_leads] *)
Record lead_row : Type := mk_lead {
  lead_id : uuid;
  lead_game_id : uuid;
  lead_coach_id : uuid;
  umpire_name : string;
  umpire_contact : option string;
  how_found : string;
  notes : option string
}.

Record store : Type := mk_store {
  games : list game_row;
  umpire_requests : list request_row;
  ratings : list rating_row;
  external_umpire_leads : list lead_row;
  user_roles : list (uuid * app_role);
  next_uuid : uuid
}.

(** [has_role(auth.uid(), role)]: membership in [user_roles], the table
    the pages query for their access checks. *)
Definition has_role (st : store) (uid : uuid) (r : app_role) : bool :=
  existsb (fun ur => (fst ur =? uid) && app_role_eqb (snd ur) r)
          (user_roles st).

Definition option_uuid_eqb (a b : option uuid) : bool :=
  match a, b with
  | Some x, Some y => x =? y
  | None, None => true
  | _, _ => false
  end.

(** *** Policies on [games]

    Policies are permissive: those that apply to a command are combined
    with OR.  A policy without [WITH CHECK] checks new rows with its
    [USING] expression. *)

(** "Coaches can update their own games" / "Coaches can create their own
    games" *)
Definition games_coach_policy (uid : uuid) (g : game_row) : bool :=
  uid =? coach_id g.

(** "Employees can manage all games" ([FOR ALL]) *)
Definition games_employee_policy (st : store) (uid : uuid) : bool :=
  has_role st uid employee.

(** "Umpires can accept unassigned games", [USING] *)
Definition games_umpire_accept_using (st : store) (uid : uuid)
           (g : game_row) : bool :=
  has_role st uid umpire
  && negb (is_some (assigned_umpire_id g))
  && game_status_eqb (status g) pending.

(** "Umpires can accept unassigned games", [WITH CHECK] *)
Definition games_umpire_accept_check (st : store) (uid : uuid)
           (g : game_row) : bool :=
  has_role st uid umpire
  && option_uuid_eqb (assigned_umpire_id g) (Some uid)
  && game_status_eqb (status g) assigned.

Definition games_insert_check (st : store) (uid : uuid) (g : game_row)
  : bool :=
  games_coach_policy uid g || games_employee_policy st uid.

Definition games_update_using (st : store) (uid : uuid) (g : game_row)
  : bool :=
  games_coach_policy uid g
  || games_employee_policy st uid
  || games_umpire_accept_using st uid g.

Definition games_update_check (st : store) (uid : uuid) (g : game_row)
  : bool :=
  games_coach_policy uid g
  || games_employee_policy st uid
  || games_umpire_accept_check st uid g.

(** The [SELECT] policies on [games] after the last migration. *)
Definition games_select_using (st : store) (uid : uuid) (g : game_row)
  : bool :=
  games_coach_policy uid g
  || games_employee_policy st uid
  || option_uuid_eqb (assigned_umpire_id g) (Some uid)
  || (has_role st uid umpire
      && negb (is_some (assigned_umpire_id g))
      && game_status_eqb (status g) pending).

(** The columns an [update] of [games] assigns in this application. *)
Record games_patch : Type := mk_patch {
  set_status : option game_status;
  set_assigned_umpire_id : option (option uuid)
}.

Definition apply_patch (p : games_patch) (g : game_row) : game_row :=
  mk_game (id g) (coach_id g) (game_date g) (location g) (opponent g)
          (match set_status p with Some s => s | None => status g end)
          (match set_assigned_umpire_id p with
           | Some u => u
           | None => assigned_umpire_id g
           end)
          (latitude g) (longitude g).

Definition with_games (st : store) (gs : list game_row) : store :=
  mk_store gs (umpire_requests st) (ratings st)
           (external_umpire_leads st) (user_roles st) (next_uuid st).

(** [supabase.from("games").update(p).eq("id", gid)] issued by [uid].

    Rows that do not match the filter, or that no [UPDATE] policy's
    [USING] admits, are skipped without an error.  If a row that is
    updated fails every [WITH CHECK], the statement raises and nothing is
    written. *)
Definition games_update_target (st : store) (uid gid : uuid)
           (g : game_row) : bool :=
  (id g =? gid) && games_update_using st uid g.

Definition games_update (st : store) (uid : uuid) (p : games_patch)
           (gid : uuid) : store * option pg_error :=
  let targets := filter (games_update_target st uid gid) (games st) in
  if forallb (fun g => games_update_check st uid (apply_patch p g)) targets
  then
    (with_games st
       (map (fun g => if games_update_target st uid gid g
                      then apply_patch p g else g)
            (games st)),
     None)
  else (st, Some insufficient_privilege).

(** [supabase.from("games").insert({coach_id, game_date, location,
    opponent, status}).select().single()]: the other columns take their
    defaults ([NULL]). *)
Definition games_insert (st : store) (uid : uuid) (coach : uuid)
           (date : Z) (loc opp : string) (s : game_status)
  : store * (game_row + pg_error) :=
  let g := mk_game (next_uuid st) coach date loc opp s None None None in
  if games_insert_check st uid g
  then
    (mk_store (games st ++ [g]) (umpire_requests st) (ratings st)
              (external_umpire_leads st) (user_roles st)
              (next_uuid st + 1),
     inl g)
  else (st, inr insufficient_privilege).

(** *** Policies on [umpire_requests] *)

(** "Coaches can create their own requests" or "Employees can manage all
    requests" *)
Definition requests_insert_check (st : store) (uid : uuid)
           (r : request_row) : bool :=
  (uid =? request_coach_id r) || has_role st uid employee.

(** Only "Employees can manage all requests" applies to [UPDATE]. *)
Definition requests_update_using (st : store) (uid : uuid)
           (r : request_row) : bool :=
  has_role st uid employee.

Definition with_requests (st : store) (rs : list request_row) : store :=
  mk_store (games st) rs (ratings st) (external_umpire_leads st)
           (user_roles st) (next_uuid st).

Definition requests_insert (st : store) (uid : uuid) (gid coach : uuid)
           (s : request_status) : store * option pg_error :=
  let r := mk_request (next_uuid st) gid coach s in
  if requests_insert_check st uid r
  then
    (mk_store (games st) (umpire_requests st ++ [r]) (ratings st)
              (external_umpire_leads st) (user_roles st)
              (next_uuid st + 1),
     None)
  else (st, Some insufficient_privilege).

(** [supabase.from("umpire_requests").update({status}).eq("game_id", gid)] *)
Definition requests_update_status (st : store) (uid : uuid)
           (s : request_status) (gid : uuid) : store * option pg_error :=
  (with_requests st
     (map (fun r =>
             if (request_game_id r =? gid) && requests_update_using st uid r
             then mk_request (request_id r) (request_game_id r)
                             (request_coach_id r) s
             else r)
          (umpire_requests st)),
   None).

(** *** Constraints and policies on [ratings] *)

(** [CHECK (rating >= 1 AND rating <= 5)] *)
Definition ratings_check (r : rating_row) : bool :=
  (1 <=? rating r) && (rating r <=? 5).

(** [UNIQUE(game_id, coach_id)] *)
Definition same_rating_key (a b : rating_row) : bool :=
  (rating_game_id a =? rating_game_id b)
  && (rating_coach_id a =? rating_coach_id b).

(** "Coaches can create ratings for completed games", the only policy
    that applies to [INSERT].  The sub-select reads [games] as the
    caller, which adds nothing: a coach sees the games they own. *)
Definition ratings_insert_check (st : store) (uid : uuid) (r : rating_row)
  : bool :=
  (uid =? rating_coach_id r)
  && existsb (fun g => (id g =? rating_game_id r)
                       && (coach_id g =? uid)
                       && game_status_eqb (status g) completed)
             (games st).

(** No migration declares an [UPDATE] policy on [ratings]: with row
    level security enabled, no row is admitted. *)
Definition ratings_update_using (st : store) (uid : uuid) (r : rating_row)
  : bool :=
  false.

Definition with_ratings (st : store) (rs : list rating_row) : store :=
  mk_store (games st) (umpire_requests st) rs (external_umpire_leads st)
           (user_roles st) (next_uuid st).

(** [supabase.from("ratings").insert({game_id, coach_id, umpire_id,
    rating, comment})] issued by [uid] at instant [now].  The policy is
    checked first, then the [CHECK] constraint, then the unique index. *)
Definition ratings_insert (st : store) (uid : uuid) (now : Z)
           (gid coach ump : uuid) (score : Z) (c : option string)
  : store * option pg_error :=
  let r := mk_rating (next_uuid st) gid coach ump score c now in
  if negb (ratings_insert_check st uid r)
  then (st, Some insufficient_privilege)
  else if negb (ratings_check r)
  then (st, Some check_violation)
  else if existsb (same_rating_key r) (ratings st)
  then (st, Some unique_violation)
  else
    (mk_store (games st) (umpire_requests st) (ratings st ++ [r])
              (external_umpire_leads st) (user_roles st)
              (next_uuid st + 1),
     None).

(** [supabase.from("ratings").update({rating, comment}).eq("id", rid)] *)
Definition ratings_update (st : store) (uid : uuid) (score : Z)
           (c : option string) (rid : uuid) : store * option pg_error :=
  (with_ratings st
     (map (fun r =>
             if (rating_id r =? rid) && ratings_update_using st uid r
             then mk_rating (rating_id r) (rating_game_id r)
                            (rating_coach_id r) (rating_umpire_id r)
                            score c (created_at r)
             else r)
          (ratings st)),
   None).

(** *** Constraints and policies on [external_umpire_leads] *)

(** "Coaches can create their own leads" or "Employees can manage all
    leads" *)
Definition leads_insert_check (st : store) (uid : uuid) (l : lead_row)
  : bool :=
  (uid =? lead_coach_id l) || has_role st uid employee.

(** [game_id UUID NOT NULL REFERENCES public.games(id)] *)
Definition leads_game_exists (st : store) (l : lead_row) : bool :=
  existsb (fun g => id g =? lead_game_id l) (games st).

Definition leads_insert (st : store) (uid : uuid) (gid coach : uuid)
           (name : string) (contact : option string) (found : string)
           (note : option string) : store * option pg_error :=
  let l := mk_lead (next_uuid st) gid coach name contact found note in
  if negb (leads_insert_check st uid l)
  then (st, Some insufficient_privilege)
  else if negb (leads_game_exists st l)
  then (st, Some foreign_key_violation)
  else
    (mk_store (games st) (umpire_requests st) (ratings st)
              (external_umpire_leads st ++ [l]) (user_roles st)
              (next_uuid st + 1),
     None).

End Schema.

(** ** The umpire dashboard *)

Module UmpireDashboard.
Import Schema.

(** [Math.atan2(y, x)] *)
Definition atan2 (y x : R) : R :=
  if Rlt_dec 0 x then atan (y / x)
  else if Rlt_dec x 0 then
    (if Rle_dec 0 y then atan (y / x) + PI else atan (y / x) - PI)%R
  else if Rlt_dec 0 y then (PI / 2)%R
  else if Rlt_dec y 0 then (- (PI / 2))%R
  else 0%R.

(** Haversine distance in miles between two points given in degrees. *)
Definition calculateDistance (lat1 lon1 lat2 lon2 : R) : R :=
  let radius := 3959%R in
  let dLat := ((lat2 - lat1) * PI / 180)%R in
  let dLon := ((lon2 - lon1) * PI / 180)%R in
  let a :=
    (sin (dLat / 2) * sin (dLat / 2) +
     cos (lat1 * PI / 180) * cos (lat2 * PI / 180) *
     sin (dLon / 2) * sin (dLon / 2))%R in
  let c := (2 * atan2 (sqrt a) (sqrt (1 - a)))%R in
  (radius * c)%R.

Definition twoHours : Z := 2 * 60 * 60 * 1000.

(** [(travelTimeMinutes + 60) * 60 * 1000] for a distance in miles, at
    30 miles per hour. *)
Definition requiredBuffer (distance : R) : R :=
  let travelTimeMinutes := (distance / 30 * 60)%R in
  ((travelTimeMinutes + 60) * 60 * 1000)%R.

(** The guard [gameLat && gameLng && game.latitude && game.longitude]:
    the four numbers when all of them are truthy. *)
Definition usable_coordinates (gameLat gameLng lat lng : option R)
  : option (R * R * R * R) :=
  match gameLat, gameLng, lat, lng with
  | Some a, Some b, Some c, Some d =>
      if truthy_number gameLat && truthy_number gameLng
         && truthy_number lat && truthy_number lng
      then Some (a, b, c, d) else None
  | _, _, _, _ => None
  end.

(** One turn of the loop over [myGames]: [true] when the turn executes
    [return true]. *)
Definition conflicts_with (gameDate : Z) (gameLat gameLng : option R)
           (game : game_row) : bool :=
  let newGameTime := gameDate in
  let existingGameTime := game_date game in
  let timeDiff := Z.abs (newGameTime - existingGameTime) in
  if timeDiff <? twoHours then
    match usable_coordinates gameLat gameLng
                             (latitude game) (longitude game) with
    | Some (lat1, lon1, lat2, lon2) =>
        let distance := calculateDistance lat1 lon1 lat2 lon2 in
        if Rlt_dec (IZR timeDiff) (requiredBuffer distance)
        then true else false
    | None => true
    end
  else false.

(** [checkDoubleBooking]: the loop returns at the first turn that finds
    a conflict, and [false] when none does. *)
Fixpoint checkDoubleBooking (myGames : list game_row) (gameDate : Z)
         (gameLat gameLng : option R) : bool :=
  match myGames with
  | [] => false
  | game :: rest =>
      if conflicts_with gameDate gameLat gameLng game then true
      else checkDoubleBooking rest gameDate gameLat gameLng
  end.

(** [handleAcceptGame]; [user] is the signed-in umpire and [myGames] the
    assignments the page last fetched. *)
Definition handleAcceptGame (st : store) (user : option uuid)
           (myGames : list game_row) (gameId : uuid) (gameDate : Z)
           (gameLat gameLng : option R) : store * toast :=
  match user with
  | None => (st, no_toast)
  | Some uid =>
      if checkDoubleBooking myGames gameDate gameLat gameLng then
        (st, toast_error
               "Cannot accept: This game conflicts with your existing schedule (including travel time)")
      else
        let (st1, error) :=
          games_update st uid (mk_patch (Some assigned) (Some (Some uid)))
                       gameId in
        match error with
        | Some e => (st1, toast_error ("Error accepting game: " ++ message e))
        | None =>
            let (st2, _) :=
              requests_update_status st1 uid request_accepted gameId in
            (st2, toast_success "Game accepted successfully!")
        end
  end.

(** The predicate of [availableGames.filter(...)]. *)
Definition within_reach (userLat userLng : option R) (maxDistance : R)
           (game : game_row) : bool :=
  match userLat, userLng, latitude game, longitude game with
  | Some ulat, Some ulng, Some glat, Some glng =>
      if negb (truthy_number userLat) || negb (truthy_number userLng)
         || negb (truthy_number (latitude game))
         || negb (truthy_number (longitude game))
      then true
      else
        let distance := calculateDistance ulat ulng glat glng in
        if Rle_dec distance maxDistance then true else false
  | _, _, _, _ => true
  end.

Definition filteredGames (availableGames : list game_row)
           (userLat userLng : option R) (maxDistance : R)
  : list game_row :=
  filter (within_reach userLat userLng maxDistance) availableGames.

End UmpireDashboard.

(** ** Strings as the handlers use them *)

(** The white space [String.prototype.trim] removes, within ASCII. *)
Definition is_space (c : ascii) : bool :=
  let n := nat_of_ascii c in
  (Nat.eqb n 32 || (Nat.leb 9 n && Nat.leb n 13))%bool.

Fixpoint trim_start (s : string) : string :=
  match s with
  | String c rest => if is_space c then trim_start rest else s
  | EmptyString => EmptyString
  end.

Fixpoint trim_end (s : string) : string :=
  match s with
  | String c rest =>
      match trim_end rest with
      | EmptyString => if is_space c then EmptyString else String c EmptyString
      | kept => String c kept
      end
  | EmptyString => EmptyString
  end.

Definition trim (s : string) : string := trim_end (trim_start s).

(** [s || null] *)
Definition or_null (s : string) : option string :=
  match s with
  | EmptyString => None
  | _ => Some s
  end.

(** ** Creating a game: the coach's and the staff's request dialogs *)

Module RequestUmpireDialog.
Import Schema.

(** [handleSubmit]; [gameDateTime] is the picked day with the entered
    time of day, [None] while no day is picked. *)
Definition handleSubmit (st : store) (user : option uuid)
           (gameDateTime : option Z) (location opponent : string)
  : store * toast :=
  match user, gameDateTime with
  | Some uid, Some date =>
      match games_insert st uid uid date location opponent pending with
      | (st1, inr _) => (st1, toast_error "Failed to submit request")
      | (st1, inl game) =>
          match requests_insert st1 uid (id game) uid request_pending with
          | (st2, Some _) => (st2, toast_error "Failed to submit request")
          | (st2, None) =>
              (st2, toast_success "Umpire request submitted successfully!")
          end
      end
  | _, _ => (st, no_toast)
  end.

End RequestUmpireDialog.

Module CreateGameRequestDialog.
Import Schema.

(** [handleSubmit], issued by the signed-in staff member [uid] on behalf
    of [selectedCoachId] ([None] for the empty selection). *)
Definition handleSubmit (st : store) (uid : uuid)
           (selectedCoachId : option uuid) (gameDateTime : option Z)
           (location opponent : string) : store * toast :=
  match selectedCoachId, gameDateTime with
  | Some coach_sel, Some date =>
      match games_insert st uid coach_sel date location opponent pending with
      | (st1, inr e) =>
          (st1, toast_error ("Failed to create request: " ++ message e))
      | (st1, inl game) =>
          match requests_insert st1 uid (id game) coach_sel
                                request_pending with
          | (st2, Some e) =>
              (st2, toast_error ("Failed to create request: " ++ message e))
          | (st2, None) =>
              (st2, toast_success
                      "Game and umpire request created successfully!")
          end
      end
  | _, _ => (st, toast_error "Please select a coach and date")
  end.

End CreateGameRequestDialog.

(** ** Rating an umpire *)

Module RateUmpireDialog.
Import Schema.

Record ExistingRating : Type := mk_existing {
  existing_id : uuid;
  existing_rating_value : Z;
  existing_comment : option string;
  existing_created_at : Z
}.

(** The [game] property of the dialog. *)
Record game_prop : Type := mk_game_prop {
  game_id : uuid;
  game_assigned_umpire_id : option uuid;
  existing_rating : option ExistingRating
}.

(** The first form of the dialog: insert only, a score of 0 is "nothing
    chosen yet". *)
Definition handleSubmit_insert (st : store) (now : Z) (user : option uuid)
           (game : game_prop) (rating : Z) (comment : string)
  : store * toast :=
  match user, game_assigned_umpire_id game with
  | Some uid, Some ump =>
      if rating =? 0 then (st, no_toast)
      else
        match ratings_insert st uid now (game_id game) uid ump rating
                             (or_null comment) with
        | (st1, None) => (st1, toast_success "Rating submitted successfully!")
        | (st1, Some e) =>
            if String.eqb (code e) "23505"
            then (st1, toast_error
                         "You have already rated this umpire for this game")
            else (st1, toast_error "Failed to submit rating")
        end
  | _, _ => (st, no_toast)
  end.

(** The later form: a no-show check box, and an update when the game
    already carries a rating. *)
Definition handleSubmit (st : store) (now : Z) (user : option uuid)
           (game : game_prop) (rating : Z) (comment : string)
           (noShow : bool) : store * toast :=
  match user, game_assigned_umpire_id game with
  | Some uid, Some ump =>
      if negb noShow && (rating =? 0) then (st, no_toast)
      else
        let finalRating := if noShow then 0 else rating in
        let report (r : store * option pg_error) (ok : string) :=
          match r with
          | (st1, None) => (st1, toast_success ok)
          | (st1, Some e) =>
              if String.eqb (code e) "23505"
              then (st1, toast_error
                           "You have already rated this umpire for this game")
              else (st1, toast_error "Failed to submit rating")
          end in
        match existing_rating game with
        | Some existing =>
            report (ratings_update st uid finalRating (or_null comment)
                                   (existing_id existing))
                   "Rating updated successfully!"
        | None =>
            report (ratings_insert st uid now (game_id game) uid ump
                                   finalRating (or_null comment))
                   "Rating submitted successfully!"
        end
  | _, _ => (st, no_toast)
  end.

End RateUmpireDialog.

Module CoachDashboard.
Import Schema.

(** [differenceInHours(later, earlier)] of date-fns: the difference in
    milliseconds over 3600000, truncated toward zero. *)
Definition differenceInHours (later earlier : Z) : Z :=
  Z.quot (later - earlier) 3600000.

(** [canEditRating]; [now] is the instant [new Date()] reads. *)
Definition canEditRating (now : Z) (rating : RateUmpireDialog.ExistingRating)
  : bool :=
  let hoursSinceCreation :=
    differenceInHours now (RateUmpireDialog.existing_created_at rating) in
  hoursSinceCreation <? 24.

(** What [GameRatingDisplay] offers for a game. *)
Inductive rating_display : Set :=
| edit_button
| rated_label
| rate_button.

Definition GameRatingDisplay (now : Z) (game : RateUmpireDialog.game_prop)
  : rating_display :=
  match RateUmpireDialog.existing_rating game with
  | Some existing =>
      if canEditRating now existing then edit_button else rated_label
  | None => rate_button
  end.

End CoachDashboard.

(** ** Reconciling games that lapsed *)

Module PastGamesNotificationDialog.
Import Schema.

Record PastGame : Type := mk_past_game {
  id : uuid;
  game_date : Z;
  location : string;
  opponent : string;
  assigned_umpire_id : uuid
}.

(** [handleConfirmAndRate] for the game the wizard shows. *)
Definition handleConfirmAndRate (st : store) (now : Z) (user : option uuid)
           (currentGame : option PastGame) (rating : Z) (comment : string)
           (noShow : bool) : store * toast :=
  match user, currentGame with
  | Some uid, Some game =>
      if negb noShow && (rating =? 0) then
        (st, toast_error
               "Please provide a rating or mark as no-show before confirming")
      else
        let finalRating := if noShow then 0 else rating in
        match games_update st uid (mk_patch (Some completed) None)
                           (id game) with
        | (st1, Some _) =>
            (st1, toast_error "Failed to confirm game. Please try again.")
        | (st1, None) =>
            match ratings_insert st1 uid now (id game) uid
                                 (assigned_umpire_id game) finalRating
                                 (or_null comment) with
            | (st2, Some e) =>
                if negb (String.eqb (code e) "23505")
                then (st2, toast_error
                             "Failed to confirm game. Please try again.")
                else (st2, toast_success
                             "Game confirmed and rating submitted!")
            | (st2, None) =>
                (st2, toast_success "Game confirmed and rating submitted!")
            end
        end
  | _, _ =>
      (st, toast_error
             "Please provide a rating or mark as no-show before confirming")
  end.

End PastGamesNotificationDialog.

Module PastPendingGamesDialog.
Import Schema.

Record PastPendingGame : Type := mk_past_pending {
  id : uuid;
  game_date : Z;
  location : string;
  opponent : string
}.

(** [handleSubmit]; [user] is what [supabase.auth.getUser()] returns and
    [gameCompleted] the answer chosen ([None] while none is). *)
Definition handleSubmit (st : store) (user : option uuid)
           (currentGame : option PastPendingGame)
           (gameCompleted : option bool)
           (umpireName umpireContact howFound notes : string)
  : store * toast :=
  match currentGame with
  | None => (st, no_toast)
  | Some game =>
      match user with
      | None => (st, toast_error "Failed to save game information")
      | Some uid =>
          match gameCompleted with
          | Some true =>
              match leads_insert st uid (id game) uid (trim umpireName)
                                 (or_null (trim umpireContact)) howFound
                                 (or_null (trim notes)) with
              | (st1, Some _) =>
                  (st1, toast_error "Failed to save game information")
              | (st1, None) =>
                  match games_update st1 uid
                                     (mk_patch (Some completed) None)
                                     (id game) with
                  | (st2, Some _) =>
                      (st2, toast_error "Failed to save game information")
                  | (st2, None) =>
                      (st2, toast_success "Game information saved!")
                  end
              end
          | _ =>
              match games_update st uid (mk_patch (Some cancelled) None)
                                 (id game) with
              | (st1, Some _) =>
                  (st1, toast_error "Failed to save game information")
              | (st1, None) =>
                  (st1, toast_success "Game marked as cancelled")
              end
          end
      end
  end.

(** [canSubmit] *)
Definition canSubmit (gameCompleted : option bool)
           (umpireName howFound : string) : bool :=
  match gameCompleted with
  | None => false
  | Some false => true
  | Some true =>
      (0 <? Z.of_nat (String.length (trim umpireName)))
      && (0 <? Z.of_nat (String.length howFound))
  end.

End PastPendingGamesDialog.

(** ** The browser's [Date] and the spreadsheet library *)

Module JsDate.

Definition msPerMinute : Z := 60000.
Definition msPerHour : Z := 3600000.
Definition msPerDay : Z := 86400000.

(** Days since 1970-01-01 of a proleptic Gregorian date. *)
Definition days_from_civil (y m d : Z) : Z :=
  let y' := if m <=? 2 then y - 1 else y in
  let era := y' / 400 in
  let yoe := y' - era * 400 in
  let doy := (153 * (if 2 <? m then m - 3 else m + 9) + 2) / 5 + d - 1 in
  let doe := yoe * 365 + yoe / 4 - yoe / 100 + doy in
  era * 146097 + doe - 719468.

(** Year, month and day of a day count, the inverse of
    [days_from_civil]. *)
Definition civil_from_days (z : Z) : Z * Z * Z :=
  let z' := z + 719468 in
  let era := z' / 146097 in
  let doe := z' - era * 146097 in
  let yoe := (doe - doe / 1460 + doe / 36524 - doe / 146096) / 365 in
  let y := yoe + era * 400 in
  let doy := doe - (365 * yoe + yoe / 4 - yoe / 100) in
  let mp := (5 * doy + 2) / 153 in
  let d := doy - (153 * mp + 2) / 5 + 1 in
  let m := if mp <? 10 then mp + 3 else mp - 9 in
  (if m <=? 2 then y + 1 else y, m, d).

(** [String(n)] for an integer. *)
Definition string_of_Z (n : Z) : string :=
  NilZero.string_of_int (Z.to_int n).

(** [s.padStart(width, "0")] *)
Fixpoint zeros (n : nat) : string :=
  match n with
  | O => EmptyString
  | S k => String "0"%char (zeros k)
  end.

Definition padStart (width : nat) (s : string) : string :=
  (zeros (width - String.length s) ++ s)%string.

(** [d.toISOString().split("T")[0]] for an instant whose year lies in
    0..9999. *)
Definition toISOString_date (t : Z) : string :=
  let '(y, m, d) := civil_from_days (t / msPerDay) in
  (padStart 4 (string_of_Z y) ++ "-" ++ padStart 2 (string_of_Z m)
   ++ "-" ++ padStart 2 (string_of_Z d))%string.

(** What the page takes from its surroundings: the [Date] constructor on
    strings, the local time zone, and the spreadsheet library. *)
Record date_code : Type := mk_date_code {
  y : Z; m : Z; d : Z; H : Z; M : Z
}.

Record js_env : Type := mk_env {
  (** [new Date(s).getTime()], [None] for an invalid date *)
  date_parse : string -> option Z;
  (** minutes the local clock is ahead of UTC at an instant *)
  timezone_offset : Z -> Z;
  (** [XLSX.SSF.parse_date_code] *)
  parse_date_code : Q -> option date_code;
  (** [Number.prototype.toString] *)
  number_toString : Q -> string
}.

Definition local_ms (env : js_env) (t : Z) : Z :=
  t + timezone_offset env t * msPerMinute.

Definition getHours (env : js_env) (t : Z) : Z :=
  (local_ms env t / msPerHour) mod 24.

Definition getMinutes (env : js_env) (t : Z) : Z :=
  (local_ms env t / msPerMinute) mod 60.

(** *** A browser in a zone at a fixed offset

    Strings in the two ECMAScript date-time forms the import meets:
    [YYYY-MM-DD] is read as UTC midnight, [YYYY-MM-DDTHH:MM] as local
    time.  Other strings are not dates in this environment. *)

Definition number_of (s : string) : option Z :=
  match NilEmpty.uint_of_string s with
  | Some u => if (String.length s =? 0)%nat then None else Some (Z.of_uint u)
  | None => None
  end.

Definition days_in_month (y m : Z) : Z :=
  days_from_civil (if m =? 12 then y + 1 else y) (if m =? 12 then 1 else m + 1) 1
  - days_from_civil y m 1.

Definition parse_ymd (s : string) : option Z :=
  match number_of (substring 0 4 s), number_of (substring 5 2 s),
        number_of (substring 8 2 s) with
  | Some y, Some m, Some d =>
      if String.eqb (substring 4 1 s) "-" && String.eqb (substring 7 1 s) "-"
         && (1 <=? m) && (m <=? 12) && (1 <=? d) && (d <=? days_in_month y m)
      then Some (days_from_civil y m d)
      else None
  | _, _, _ => None
  end.

Definition parse_hm (s : string) : option Z :=
  match number_of (substring 0 2 s), number_of (substring 3 2 s) with
  | Some h, Some mi =>
      if String.eqb (substring 2 1 s) ":" && (h <=? 23) && (mi <=? 59)
      then Some (h * msPerHour + mi * msPerMinute)
      else None
  | _, _ => None
  end.

Definition fixed_offset_parse (offset : Z) (s : string) : option Z :=
  if (String.length s =? 10)%nat then
    match parse_ymd s with
    | Some days => Some (days * msPerDay)
    | None => None
    end
  else if (String.length s =? 16)%nat
          && String.eqb (substring 10 1 s) "T" then
    match parse_ymd (substring 0 10 s), parse_hm (substring 11 5 s) with
    | Some days, Some ms =>
        Some (days * msPerDay + ms - offset * msPerMinute)
    | _, _ => None
    end
  else None.

(** Serial day numbers do not occur in the examples. *)
Definition fixed_offset_env (offset : Z) : js_env :=
  mk_env (fixed_offset_parse offset) (fun _ => offset)
         (fun _ => None) (fun _ => EmptyString).

End JsDate.

(** ** The staff's bulk import *)

Module BulkUploadGamesDialog.
Import Schema JsDate.

(** A cell of a row object [sheet_to_json] returns. *)
Inductive js_value : Type :=
| js_string (s : string)
| js_number (n : Q).

(** A row: its own properties in order; a later duplicate never shows. *)
Definition row : Type := list (string * js_value).

Fixpoint get (r : row) (key : string) : option js_value :=
  match r with
  | [] => None
  | (k, v) :: rest => if String.eqb k key then Some v else get rest key
  end.

Definition truthy (v : js_value) : bool :=
  match v with
  | js_string s => negb (String.eqb s "")
  | js_number n => negb (Qeq_bool n 0)
  end.

Definition toString (env : js_env) (v : js_value) : string :=
  match v with
  | js_string s => s
  | js_number n => number_toString env n
  end.

(** [row.k1 || row.k2 || ... || fallback] *)
Fixpoint first_truthy (r : row) (keys : list string) (fallback : js_value)
  : js_value :=
  match keys with
  | [] => fallback
  | k :: rest =>
      match get r k with
      | Some v => if truthy v then v else first_truthy r rest fallback
      | None => first_truthy r rest fallback
      end
  end.

Record ParsedGame : Type := mk_parsed {
  opponent : string;
  location : string;
  date : string;
  time : string;
  valid : bool;
  error : option string
}.

Definition pad2 (n : Z) : string := padStart 2 (string_of_Z n).

(** [parseExcelDate] *)
Definition parseExcelDate (env : js_env) (value : js_value)
  : option (string * string) :=
  if negb (truthy value) then None
  else
    match value with
    | js_number n =>
        match parse_date_code env n with
        | Some dc =>
            Some ((string_of_Z (y dc) ++ "-" ++ pad2 (m dc) ++ "-"
                   ++ pad2 (d dc))%string,
                  (pad2 (H dc) ++ ":" ++ pad2 (M dc))%string)
        | None => None
        end
    | js_string s =>
        match date_parse env s with
        | Some parsed =>
            Some (toISOString_date parsed,
                  (pad2 (getHours env parsed) ++ ":"
                   ++ pad2 (getMinutes env parsed))%string)
        | None => None
        end
    end.

(** [errors.join(", ")] *)
Fixpoint join (sep : string) (l : list string) : string :=
  match l with
  | [] => EmptyString
  | [x] => x
  | x :: rest => (x ++ sep ++ join sep rest)%string
  end.

(** The column names a row is searched for, in the order of the [||]
    chains. *)
Definition opponent_keys : list string :=
  ["opponent"; "Opponent"; "OPPONENT"].
Definition location_keys : list string :=
  ["location"; "Location"; "LOCATION"].
Definition date_keys : list string :=
  ["date"; "Date"; "DATE"; "game_date"; "GameDate"].
Definition time_keys : list string :=
  ["time"; "Time"; "TIME"; "game_time"; "GameTime"].
Definition datetime_keys : list string :=
  ["datetime"; "DateTime"; "DATETIME"; "game_datetime"].

(** The function [handleFileUpload] maps over the rows. *)
Definition parseRow (env : js_env) (r : row) : ParsedGame :=
  let opponent := first_truthy r opponent_keys (js_string "") in
  let location := first_truthy r location_keys (js_string "") in
  let dateValue := first_truthy r date_keys (js_string "") in
  let timeValue := first_truthy r time_keys (js_string "18:00") in
  let dateTimeValue := first_truthy r datetime_keys (js_string "") in
  let '(parsedDate, parsedTime) :=
    if truthy dateTimeValue then
      match parseExcelDate env dateTimeValue with
      | Some (pdate, ptime) => (js_string pdate, js_string ptime)
      | None => (dateValue, timeValue)
      end
    else if truthy dateValue then
      match parseExcelDate env dateValue with
      | Some (pdate, ptime) =>
          (js_string pdate,
           if negb (String.eqb ptime "00:00") then js_string ptime
           else timeValue)
      | None => (dateValue, timeValue)
      end
    else (dateValue, timeValue) in
  let errors :=
    ((if negb (truthy opponent) then ["Missing opponent"] else [])
     ++ (if negb (truthy location) then ["Missing location"] else [])
     ++ (if negb (truthy parsedDate) then ["Missing/invalid date"] else []))%list
  in
  mk_parsed (trim (toString env opponent))
            (trim (toString env location))
            (toString env parsedDate)
            (let t := toString env parsedTime in
             if String.eqb t "" then "18:00" else t)
            (Nat.eqb (List.length errors) 0)
            (if Nat.ltb 0 (List.length errors)
             then Some (join ", " errors) else None).

Definition count (n : nat) : string := string_of_Z (Z.of_nat n).

(** [handleFileUpload] once the sheet is read: the preview and the
    notice. *)
Definition handleFileUpload (env : js_env) (jsonData : list row)
  : list ParsedGame * toast :=
  let games := map (parseRow env) jsonData in
  let validCount := List.length (filter valid games) in
  let invalidCount := List.length (filter (fun g => negb (valid g)) games) in
  (games,
   if Nat.ltb 0 invalidCount then
     toast_warning ("Parsed " ++ count (List.length games) ++ " games: "
                    ++ count validCount ++ " valid, "
                    ++ count invalidCount ++ " have errors")
   else
     toast_success ("Parsed " ++ count (List.length games)
                    ++ " games successfully")).

(** The body of the loop in [handleSubmit]: one valid row, the counters
    threaded through. *)
Definition create_one (env : js_env) (uid selectedCoachId : uuid)
           (acc : store * nat * nat) (game : ParsedGame)
  : store * nat * nat :=
  let '(st, successCount, errorCount) := acc in
  match date_parse env (date game ++ "T" ++ time game) with
  | None => (st, successCount, S errorCount)
  | Some gameDateTime =>
      match games_insert st uid selectedCoachId gameDateTime
                         (location game) (opponent game) pending with
      | (st1, inr _) => (st1, successCount, S errorCount)
      | (st1, inl createdGame) =>
          match requests_insert st1 uid (id createdGame) selectedCoachId
                                request_pending with
          | (st2, Some _) => (st2, successCount, S errorCount)
          | (st2, None) => (st2, S successCount, errorCount)
          end
      end
  end.

(** [handleSubmit], issued by the staff member [uid]. *)
Definition handleSubmit (env : js_env) (st : store) (uid : uuid)
           (selectedCoachId : option uuid) (parsedGames : list ParsedGame)
  : store * toast :=
  match selectedCoachId with
  | None => (st, toast_error "Please select a coach")
  | Some coach_sel =>
      let validGames := filter valid parsedGames in
      if Nat.eqb (List.length validGames) 0 then
        (st, toast_error "No valid games to upload")
      else
        let '(st1, successCount, errorCount) :=
          fold_left (create_one env uid coach_sel) validGames (st, O, O) in
        if Nat.ltb 0 successCount then
          (st1, toast_success
                  ("Created " ++ count successCount ++ " games successfully"
                   ++ (if Nat.ltb 0 errorCount
                       then ", " ++ count errorCount ++ " failed"
                       else "")))
        else (st1, toast_error "Failed to create any games")
  end.

End BulkUploadGamesDialog.

(** ** The operations that write to the store, and what they keep *)

Module Lifecycle.
Import Schema.

(** The handlers above, as one type of requests. *)
Inductive operation : Type :=
| op_request_umpire (user : option uuid) (gameDateTime : option Z)
                    (location opponent : string)
| op_create_game_request (uid : uuid) (selectedCoachId : option uuid)
                         (gameDateTime : option Z)
                         (location opponent : string)
| op_bulk_upload (env : JsDate.js_env) (uid : uuid)
                 (selectedCoachId : option uuid)
                 (parsedGames : list BulkUploadGamesDialog.ParsedGame)
| op_accept (user : option uuid) (myGames : list game_row) (gameId : uuid)
            (gameDate : Z) (gameLat gameLng : option R)
| op_confirm_and_rate (now : Z) (user : option uuid)
                      (currentGame : option PastGamesNotificationDialog.PastGame)
                      (rating : Z) (comment : string) (noShow : bool)
| op_past_pending (user : option uuid)
                  (currentGame : option PastPendingGamesDialog.PastPendingGame)
                  (gameCompleted : option bool)
                  (umpireName umpireContact howFound notes : string)
| op_rate_insert (now : Z) (user : option uuid)
                 (game : RateUmpireDialog.game_prop) (rating : Z)
                 (comment : string)
| op_rate (now : Z) (user : option uuid) (game : RateUmpireDialog.game_prop)
          (rating : Z) (comment : string) (noShow : bool).

Definition run (op : operation) (st : store) : store * toast :=
  match op with
  | op_request_umpire user date loc opp =>
      RequestUmpireDialog.handleSubmit st user date loc opp
  | op_create_game_request uid sel date loc opp =>
      CreateGameRequestDialog.handleSubmit st uid sel date loc opp
  | op_bulk_upload env uid sel parsed =>
      BulkUploadGamesDialog.handleSubmit env st uid sel parsed
  | op_accept user myGames gameId gameDate gameLat gameLng =>
      UmpireDashboard.handleAcceptGame st user myGames gameId gameDate
                                       gameLat gameLng
  | op_confirm_and_rate now user game rating comment noShow =>
      PastGamesNotificationDialog.handleConfirmAndRate
        st now user game rating comment noShow
  | op_past_pending user game answer name contact found notes =>
      PastPendingGamesDialog.handleSubmit st user game answer name contact
                                          found notes
  | op_rate_insert now user game rating comment =>
      RateUmpireDialog.handleSubmit_insert st now user game rating comment
  | op_rate now user game rating comment noShow =>
      RateUmpireDialog.handleSubmit st now user game rating comment noShow
  end.

(** The game invariant as the data model words it: a provider is set
    exactly when the status is [assigned] or [completed]. *)
Definition provider_iff_assigned_or_completed (g : game_row) : bool :=
  Bool.eqb (is_some (assigned_umpire_id g))
           (game_status_eqb (status g) assigned
            || game_status_eqb (status g) completed).

(** What the handlers keep: a provider is set only on [assigned] and
    [completed] games, and every [assigned] game has one. *)
Definition provider_consistent (g : game_row) : bool :=
  (negb (is_some (assigned_umpire_id g))
   || game_status_eqb (status g) assigned
   || game_status_eqb (status g) completed)
  && (negb (game_status_eqb (status g) assigned)
      || is_some (assigned_umpire_id g)).

Definition all_games (P : game_row -> bool) (st : store) : bool :=
  forallb P (games st).

(** The not-played branch of the pending wizard is meant for games no
    umpire took: the rows it would cancel carry no provider. *)
Definition cancels_unassigned (op : operation) (st : store) : Prop :=
  match op with
  | op_past_pending (Some _) (Some game) answer _ _ _ _ =>
      answer <> Some true ->
      forall g, In g (games st) ->
                id g = PastPendingGamesDialog.id game ->
                assigned_umpire_id g = None
  | _ => True
  end.

(** The patch of [update({ status: "completed" })]. *)
Definition mark_completed : games_patch := mk_patch (Some completed) None.

(** [UNIQUE(game_id, coach_id)] as a property of the table. *)
Definition rating_key (r : rating_row) : uuid * uuid :=
  (rating_game_id r, rating_coach_id r).



End Lifecycle.


(** ** Sample data *)

Module Samples.
Import Schema.

(** Coach 10, umpires 7 and 8, staff member 20. *)
Definition roles : list (uuid * app_role) :=
  [(10, coach); (7, umpire); (8, umpire); (20, employee)].

(** A game at instant [t] that umpire 7 holds, at the given venue. *)
Definition held_game (t : Z) (lat lng : option R) : game_row :=
  mk_game 1 10 t "Field 1" "Tigers" assigned (Some 7) lat lng.

(** A venue [dist] miles due north of the point (1, 1). *)
Definition north_of_1_1 (dist : R) : R := (1 + dist / 3959 * 180 / PI)%R.

Definition store_of (gs : list game_row) (rs : list rating_row) : store :=
  mk_store gs [] rs [] roles 100.

Definition open_game : game_row :=
  mk_game 1 10 1000 "Field 1" "Tigers" pending None None None.

Definition taken_game : game_row :=
  mk_game 1 10 1000 "Field 1" "Tigers" assigned (Some 7) None None.

Definition played_game : game_row :=
  mk_game 1 10 1000 "Field 1" "Tigers" completed (Some 7) None None.

Definition first_rating : rating_row :=
  mk_rating 50 1 10 7 4 None 0.

(** Rows of a sheet, as [sheet_to_json] hands them over. *)
Definition tigers_row (date : string) : BulkUploadGamesDialog.row :=
  [("opponent", BulkUploadGamesDialog.js_string "Tigers");
   ("location", BulkUploadGamesDialog.js_string "Field 3");
   ("date", BulkUploadGamesDialog.js_string date)].


(** A browser on UTC, and one four hours west of it. *)
Definition utc : JsDate.js_env := JsDate.fixed_offset_env 0.
Definition four_hours_west : JsDate.js_env := JsDate.fixed_offset_env (-240).

End Samples.


(** ** Queries of the dashboards *)

(** [.order("game_date", { ascending: true })]: rows by ascending key; rows
    with equal keys keep the order of the table. *)
Module Ordering.

Fixpoint insert_by {A : Type} (key : A -> Z) (x : A) (l : list A)
  : list A :=
  match l with
  | [] => [x]
  | y :: rest =>
      if key x <=? key y then x :: l else y :: insert_by key x rest
  end.

Definition order_by {A : Type} (key : A -> Z) (l : list A) : list A :=
  fold_right (insert_by key) [] l.

(** A list by ascending key. *)
Definition ascending {A : Type} (key : A -> Z) : list A -> Prop :=
  Sorted (fun a b => key a <= key b).

End Ordering.

(** What [fetchData] of the umpire dashboard loads for the signed-in user
    [uid] at instant [now]. *)
Module UmpireDashboardData.
Import Schema.

(** The query behind [setAvailableGames]: pending games without an
    umpire, not yet in the past, among the rows the caller may see. *)
Definition availableGames (st : store) (uid : uuid) (now : Z)
  : list game_row :=
  Ordering.order_by
    game_date
    (filter (fun g => games_select_using st uid g
                      && negb (is_some (assigned_umpire_id g))
                      && game_status_eqb (status g) pending
                      && (now <=? game_date g))
            (games st)).

(** The patch of [update({ assigned_umpire_id: user.id, status:
    "assigned" })]. *)
Definition accepted_by (uid : uuid) : games_patch :=
  mk_patch (Some assigned) (Some (Some uid)).

(** The query behind [setMyGames]. *)
Definition myGames (st : store) (uid : uuid) : list game_row :=
  Ordering.order_by
    game_date
    (filter (fun g => games_select_using st uid g
                      && option_uuid_eqb (assigned_umpire_id g) (Some uid))
            (games st)).

End UmpireDashboardData.

(** [public.get_assigned_umpire_name(game_id_param)], run as its definer:
    the row-level policies do not apply inside. *)
Module Rpc.
Import Schema.

(** The columns of [public.profiles] the function reads. *)
Record profile_row : Type := mk_profile {
  profile_id : uuid;
  full_name : option string
}.

Definition game_by_id (st : store) (gid : uuid) : option game_row :=
  find (fun g => id g =? gid) (games st).

(** [requesting_coach_id != auth.uid()]: true only when both sides are
    known and differ. *)
Definition known_and_different (a b : option uuid) : bool :=
  match a, b with
  | Some x, Some y => negb (x =? y)
  | _, _ => false
  end.

Definition get_assigned_umpire_name (st : store)
           (profiles : list profile_row) (auth_uid : option uuid)
           (game_id_param : uuid) : option string :=
  let requesting_coach_id :=
    option_map coach_id (game_by_id st game_id_param) in
  if known_and_different requesting_coach_id auth_uid then None
  else
    match game_by_id st game_id_param with
    | Some g =>
        match assigned_umpire_id g with
        | Some ump =>
            match find (fun p => profile_id p =? ump) profiles with
            | Some p => full_name p
            | None => None
            end
        | None => None
        end
    | None => None
    end.

End Rpc.

(** What the coach dashboard loads for the signed-in coach [uid]. *)
Module CoachDashboardData.
Import Schema.

(** The rows of [checkPastGames]: the coach's assigned games whose time
    has passed. *)
Definition pastGames (st : store) (uid : uuid) (now : Z) : list game_row :=
  Ordering.order_by
    game_date
    (filter (fun g => games_select_using st uid g
                      && (coach_id g =? uid)
                      && game_status_eqb (status g) assigned
                      && is_some (assigned_umpire_id g)
                      && (game_date g <? now))
            (games st)).

(** A fetched row as the [PastGame] the wizard works on. *)
Definition as_PastGame (g : game_row)
  : option PastGamesNotificationDialog.PastGame :=
  match assigned_umpire_id g with
  | Some ump =>
      Some (PastGamesNotificationDialog.mk_past_game
              (id g) (game_date g) (location g) (opponent g) ump)
  | None => None
  end.

Fixpoint keep_some {A B : Type} (f : A -> option B) (l : list A) : list B :=
  match l with
  | [] => []
  | x :: rest =>
      match f x with
      | Some y => y :: keep_some f rest
      | None => keep_some f rest
      end
  end.

(** [checkPastGames]: the games handed to the wizard, and whether it
    opens. *)
Definition checkPastGames (st : store) (uid : uuid) (now : Z)
  : list PastGamesNotificationDialog.PastGame * bool :=
  let games := keep_some as_PastGame (pastGames st uid now) in
  (games, Nat.ltb 0 (List.length games)).

(** The [SELECT] policies on [ratings]. *)
Definition ratings_select_using (st : store) (uid : uuid) (r : rating_row)
  : bool :=
  (uid =? rating_coach_id r) || (uid =? rating_umpire_id r)
  || has_role st uid employee.

(** [ratingsMap.get(gid)] for [new Map(ratingsData.map(r => [r.game_id,
    r]))]: of two entries with one key the later one stays. *)
Fixpoint ratingsMap_get (ratingsData : list rating_row) (gid : uuid)
  : option rating_row :=
  match ratingsData with
  | [] => None
  | r :: rest =>
      match ratingsMap_get rest gid with
      | Some later => Some later
      | None => if rating_game_id r =? gid then Some r else None
      end
  end.

Definition as_ExistingRating (r : rating_row)
  : RateUmpireDialog.ExistingRating :=
  RateUmpireDialog.mk_existing (rating_id r) (rating r) (comment r)
                               (created_at r).

(** A game of the dashboard: the row, the umpire's name and the coach's
    rating of it. *)
Record Game : Type := mk_Game {
  row : game_row;
  umpire_profile : option string;
  existing_rating : option RateUmpireDialog.ExistingRating
}.

(** [umpireName ? { full_name: umpireName } : null] *)
Definition truthy_name (name : option string) : option string :=
  match name with
  | Some EmptyString => None
  | other => other
  end.

(** [fetchGames] *)
Definition fetchGames (st : store) (profiles : list Rpc.profile_row)
           (uid : uuid) : list Game :=
  let gamesData :=
    Ordering.order_by
      game_date
      (filter (fun g => games_select_using st uid g && (coach_id g =? uid))
              (games st)) in
  let ratingsData :=
    filter (fun r => ratings_select_using st uid r
                     && (rating_coach_id r =? uid))
           (ratings st) in
  map (fun game =>
         mk_Game game
                 (if is_some (assigned_umpire_id game)
                  then truthy_name
                         (Rpc.get_assigned_umpire_name st profiles
                                                       (Some uid) (id game))
                  else None)
                 (option_map as_ExistingRating
                             (ratingsMap_get ratingsData (id game))))
      gamesData.

(** The [game] property [handleRateUmpire] passes to the dialog. *)
Definition as_game_prop (game : Game) : RateUmpireDialog.game_prop :=
  RateUmpireDialog.mk_game_prop (id (row game))
                                (assigned_umpire_id (row game))
                                (existing_rating game).

(** The rating cell of a game card: drawn for completed games with an
    umpire only. *)
Definition rating_cell (now : Z) (game : Game)
  : option CoachDashboard.rating_display :=
  if game_status_eqb (status (row game)) completed
     && is_some (assigned_umpire_id (row game))
  then Some (CoachDashboard.GameRatingDisplay now (as_game_prop game))
  else None.

End CoachDashboardData.

(** The lists of the staff dashboard. *)
Module EmployeeDashboard.
Import Schema.

Definition gamesNeedingUmpire (games : list game_row) : list game_row :=
  filter (fun g => negb (is_some (assigned_umpire_id g))
                   && game_status_eqb (status g) pending)
         games.

Definition lowRatings (ratings : list rating_row) : list rating_row :=
  filter (fun r => rating r <=? 2) ratings.

End EmployeeDashboard.

(** ** The wizards over lapsed games *)

(** The state of [PastGamesNotificationDialog]; [completions] counts the
    calls of [onComplete]. *)
Module PastGamesWizard.

Record dialog : Type := mk_dialog {
  currentIndex : nat;
  rating : Z;
  hoveredRating : Z;
  comment : string;
  noShow : bool;
  open : bool;
  completions : nat
}.

(** The dialog as it opens: the first game, an empty form. *)
Definition start : dialog := mk_dialog 0 0 0 "" false true 0.

Definition currentGame (games : list PastGamesNotificationDialog.PastGame)
           (d : dialog) : option PastGamesNotificationDialog.PastGame :=
  nth_error games (currentIndex d).

(** [currentIndex === games.length - 1] *)
Definition isLastGame (games : list PastGamesNotificationDialog.PastGame)
           (d : dialog) : bool :=
  Z.of_nat (currentIndex d) =? Z.of_nat (List.length games) - 1.

Definition resetForm (d : dialog) : dialog :=
  mk_dialog (currentIndex d) 0 0 "" false (open d) (completions d).

(** The step [handleSkip] and a successful confirm share. *)
Definition next (games : list PastGamesNotificationDialog.PastGame)
           (d : dialog) : dialog :=
  if isLastGame games d then
    mk_dialog (currentIndex d) (rating d) (hoveredRating d) (comment d)
              (noShow d) false (S (completions d))
  else
    resetForm (mk_dialog (S (currentIndex d)) (rating d) (hoveredRating d)
                         (comment d) (noShow d) (open d) (completions d)).

Definition handleSkip := next.

Definition handlePrevious (d : dialog) : dialog :=
  if Nat.ltb 0 (currentIndex d) then
    resetForm (mk_dialog (currentIndex d - 1) (rating d) (hoveredRating d)
                         (comment d) (noShow d) (open d) (completions d))
  else d.

(** [handleConfirmAndRate] with the dialog around it: the wizard moves
    on exactly when the success notice is shown. *)
Definition handleConfirmAndRate
           (st : Schema.store) (now : Z) (user : option uuid)
           (games : list PastGamesNotificationDialog.PastGame) (d : dialog)
  : Schema.store * toast * dialog :=
  let '(st1, notice) :=
    PastGamesNotificationDialog.handleConfirmAndRate
      st now user (currentGame games d) (rating d) (comment d) (noShow d) in
  (st1, notice,
   match notice with
   | toast_success _ => next games d
   | _ => d
   end).

End PastGamesWizard.

(** The state of [PastPendingGamesDialog]. *)
Module PastPendingWizard.

Record dialog : Type := mk_dialog {
  currentIndex : nat;
  gameCompleted : option bool;
  umpireName : string;
  umpireContact : string;
  howFound : string;
  notes : string;
  open : bool;
  completions : nat
}.

Definition currentGame
           (games : list PastPendingGamesDialog.PastPendingGame)
           (d : dialog) : option PastPendingGamesDialog.PastPendingGame :=
  nth_error games (currentIndex d).

Definition isLastGame
           (games : list PastPendingGamesDialog.PastPendingGame)
           (d : dialog) : bool :=
  Z.of_nat (currentIndex d) =? Z.of_nat (List.length games) - 1.

Definition resetForm (d : dialog) : dialog :=
  mk_dialog (currentIndex d) None "" "" "" "" (open d) (completions d).

Definition next (games : list PastPendingGamesDialog.PastPendingGame)
           (d : dialog) : dialog :=
  if isLastGame games d then
    mk_dialog (currentIndex d) (gameCompleted d) (umpireName d)
              (umpireContact d) (howFound d) (notes d) false
              (S (completions d))
  else
    let cleared := resetForm d in
    mk_dialog (S (currentIndex d)) (gameCompleted cleared)
              (umpireName cleared) (umpireContact cleared)
              (howFound cleared) (notes cleared) (open d) (completions d).

Definition handleSkip := next.

(** [handleSubmit] with the dialog around it. *)
Definition handleSubmit
           (st : Schema.store) (user : option uuid)
           (games : list PastPendingGamesDialog.PastPendingGame)
           (d : dialog) : Schema.store * toast * dialog :=
  let '(st1, notice) :=
    PastPendingGamesDialog.handleSubmit
      st user (currentGame games d) (gameCompleted d) (umpireName d)
      (umpireContact d) (howFound d) (notes d) in
  (st1, notice,
   match notice with
   | toast_success _ => next games d
   | _ => d
   end).

(** The patch of [update({ status: "cancelled" })]. *)
Definition cancel_patch : Schema.games_patch :=
  Schema.mk_patch (Some cancelled) None.

(** The [Finish]/[Next] button is enabled. *)
Definition canSubmit (d : dialog) : bool :=
  PastPendingGamesDialog.canSubmit (gameCompleted d) (umpireName d)
                                   (howFound d).

End PastPendingWizard.

(** Counting what the bulk import creates. *)
Module BulkCounts.
Import Schema BulkUploadGamesDialog.

(** [new Date(`${game.date}T${game.time}`)] is a valid date. *)
Definition parses (env : JsDate.js_env) (game : ParsedGame) : bool :=
  is_some (JsDate.date_parse env (date game ++ "T" ++ time game)).

(** The insert policies on [games] and [umpire_requests] admit the
    caller: the chosen coach or staff. *)
Definition may_create (st : store) (uid sel : uuid) : bool :=
  (uid =? sel) || has_role st uid employee.

Definition created_count (env : JsDate.js_env) (st : store)
           (uid sel : uuid) (l : list ParsedGame) : nat :=
  if may_create st uid sel
  then List.length (filter (parses env) l) else O.

End BulkCounts.

(** ** More sample data *)

Module MoreSamples.

(** Two lapsed games of coach 10, both held by umpire 7. *)
Definition two_lapsed_games : list PastGamesNotificationDialog.PastGame :=
  [PastGamesNotificationDialog.mk_past_game 1 1000 "Field 1" "Tigers" 7;
   PastGamesNotificationDialog.mk_past_game 2 2000 "Field 2" "Lions" 7].

End MoreSamples.

(** ** What stays of a game *)

Module History.
Import Schema.

(** Two rows describe one game: they differ at most in status and
    assigned umpire. *)
Definition same_description (g g' : game_row) : Prop :=
  id g' = id g /\ coach_id g' = coach_id g /\ game_date g' = game_date g
  /\ location g' = location g /\ opponent g' = opponent g
  /\ latitude g' = latitude g /\ longitude g' = longitude g.

(** Every game of [st] is still in [st'], at its place and with its
    description; [st'] may hold more games after them. *)
Definition games_kept (st st' : store) : Prop :=
  exists kept added,
    games st' = (kept ++ added)%list
    /\ Forall2 same_description (games st) kept.

End History.


(** * Properties *)

(** ** Distance *)

Section Distance.
Import UmpireDashboard.
Local Open Scope R_scope.

Lemma atan2_nonneg (y x : R) : 0 <= y -> 0 <= x -> 0 <= atan2 y x.
Proof.
  intros Hy Hx. unfold atan2.
  destruct (Rlt_dec 0 x) as [Hpos|Hnpos].
  - rewrite <- atan_0.
    destruct (Req_dec y 0) as [->|Hne].
    + unfold Rdiv. rewrite Rmult_0_l. lra.
    + left. apply atan_increasing. apply Rdiv_lt_0_compat; lra.
  - destruct (Rlt_dec x 0); [lra|].
    destruct (Rlt_dec 0 y).
    + pose proof PI2_RGT_0. lra.
    + destruct (Rlt_dec y 0); lra.
Qed.

Lemma calculateDistance_nonneg (lat1 lon1 lat2 lon2 : R) :
  0 <= calculateDistance lat1 lon1 lat2 lon2.
Proof.
  unfold calculateDistance.
  apply Rmult_le_pos; [lra|].
  apply Rmult_le_pos; [lra|].
  apply atan2_nonneg; apply sqrt_pos.
Qed.

Lemma atan2_0_1 : atan2 0 1 = 0.
Proof.
  unfold atan2. destruct (Rlt_dec 0 1); [|lra].
  unfold Rdiv. rewrite Rmult_0_l. apply atan_0.
Qed.

(** A point is at distance 0 from itself. *)
Lemma calculateDistance_same (lat lon : R) :
  calculateDistance lat lon lat lon = 0.
Proof.
  unfold calculateDistance.
  replace ((lat - lat) * PI / 180 / 2) with 0 by lra.
  replace ((lon - lon) * PI / 180 / 2) with 0 by lra.
  rewrite sin_0.
  replace (0 * 0 + cos (lat * PI / 180) * cos (lat * PI / 180) * 0 * 0)
    with 0 by lra.
  rewrite Rminus_0_r, sqrt_0, sqrt_1, atan2_0_1. lra.
Qed.

Lemma calculateDistance_sym (lat1 lon1 lat2 lon2 : R) :
  calculateDistance lat1 lon1 lat2 lon2
  = calculateDistance lat2 lon2 lat1 lon1.
Proof.
  unfold calculateDistance.
  replace ((lat1 - lat2) * PI / 180 / 2)
    with (- ((lat2 - lat1) * PI / 180 / 2)) by lra.
  replace ((lon1 - lon2) * PI / 180 / 2)
    with (- ((lon2 - lon1) * PI / 180 / 2)) by lra.
  rewrite !sin_neg.
  set (s1 := sin ((lat2 - lat1) * PI / 180 / 2)).
  set (s2 := sin ((lon2 - lon1) * PI / 180 / 2)).
  set (c1 := cos (lat1 * PI / 180)). set (c2 := cos (lat2 * PI / 180)).
  replace (- s1 * - s1 + c2 * c1 * - s2 * - s2)
    with (s1 * s1 + c1 * c2 * s2 * s2) by ring.
  reflexivity.
Qed.

(** Two points on one meridian, [dist] miles of arc apart. *)
Lemma calculateDistance_meridian (lat lon dist : R) :
  0 <= dist -> dist / 3959 / 2 < PI / 2 ->
  calculateDistance lat lon (lat + dist / 3959 * 180 / PI) lon = dist.
Proof.
  intros Hd Hlt. unfold calculateDistance.
  pose proof PI_RGT_0 as Hpi.
  replace ((lat + dist / 3959 * 180 / PI - lat) * PI / 180 / 2)
    with (dist / 3959 / 2) by (field; lra).
  replace ((lon - lon) * PI / 180 / 2) with 0 by lra.
  rewrite sin_0.
  set (x := dist / 3959 / 2) in *.
  assert (Hx0 : 0 <= x) by (unfold x; lra).
  replace (sin x * sin x
           + cos (lat * PI / 180)
             * cos ((lat + dist / 3959 * 180 / PI) * PI / 180) * 0 * 0)
    with (Rsqr (sin x)) by (unfold Rsqr; ring).
  rewrite <- cos2.
  assert (Hcos : 0 < cos x) by (apply cos_gt_0; lra).
  assert (Hsin : 0 <= sin x) by (apply sin_ge_0; lra).
  rewrite !sqrt_Rsqr by lra.
  unfold atan2. destruct (Rlt_dec 0 (cos x)); [|lra].
  change (sin x / cos x) with (tan x).
  rewrite atan_tan by lra.
  unfold x. field.
Qed.

Lemma requiredBuffer_at_least_one_hour (dist : R) :
  0 <= dist -> 3600000 <= requiredBuffer dist.
Proof. intros H. unfold requiredBuffer. lra. Qed.

Lemma requiredBuffer_30_miles : requiredBuffer 30 = 7200000.
Proof. unfold requiredBuffer. lra. Qed.

End Distance.

(** ** Conflict detection *)

Section ConflictDetector.
Import Schema UmpireDashboard.

Lemma truthy_number_nonzero (v : R) :
  v <> 0%R -> truthy_number (Some v) = true.
Proof.
  intros H. unfold truthy_number. destruct (Req_dec_T v 0); [contradiction|reflexivity].
Qed.

Lemma truthy_number_zero : truthy_number (Some 0%R) = false.
Proof.
  unfold truthy_number. destruct (Req_dec_T 0 0) as [_|H]; [reflexivity|].
  exfalso. apply H. reflexivity.
Qed.


(** A coordinate that is exactly 0 makes the pair unusable. *)
Lemma usable_coordinates_zero (gameLat gameLng lat lng : option R) :
  gameLat = Some 0%R \/ gameLng = Some 0%R
  \/ lat = Some 0%R \/ lng = Some 0%R ->
  usable_coordinates gameLat gameLng lat lng = None.
Proof.
  intros H. unfold usable_coordinates.
  destruct gameLat as [a|], gameLng as [b|], lat as [c|], lng as [d|];
    try reflexivity.
  assert (Hf : truthy_number (Some a) && truthy_number (Some b)
               && truthy_number (Some c) && truthy_number (Some d) = false).
  { destruct H as [H|[H|[H|H]]]; injection H as ->;
      rewrite truthy_number_zero;
      repeat (rewrite ?andb_false_r, ?andb_false_l); reflexivity. }
  rewrite Hf. reflexivity.
Qed.

Lemma usable_coordinates_inv (gameLat gameLng lat lng : option R)
      (a b c d : R) :
  usable_coordinates gameLat gameLng lat lng = Some (a, b, c, d) ->
  gameLat = Some a /\ gameLng = Some b /\ lat = Some c /\ lng = Some d.
Proof.
  unfold usable_coordinates.
  destruct gameLat, gameLng, lat, lng; try discriminate.
  destruct (_ && _); [|discriminate].
  intros H. injection H as -> -> -> ->. repeat split.
Qed.

(** The loop is a disjunction over the assignments. *)
Lemma checkDoubleBooking_existsb (myGames : list game_row) (gameDate : Z)
      (gameLat gameLng : option R) :
  checkDoubleBooking myGames gameDate gameLat gameLng
  = existsb (conflicts_with gameDate gameLat gameLng) myGames.
Proof.
  induction myGames as [|game rest IH]; simpl; [reflexivity|].
  rewrite IH. destruct (conflicts_with _ _ _ game); reflexivity.
Qed.

Lemma checkDoubleBooking_In (myGames : list game_row) (g : game_row)
      (gameDate : Z) (gameLat gameLng : option R) :
  In g myGames ->
  conflicts_with gameDate gameLat gameLng g = true ->
  checkDoubleBooking myGames gameDate gameLat gameLng = true.
Proof.
  intros Hin Hc. rewrite checkDoubleBooking_existsb.
  apply existsb_exists. exists g. split; assumption.
Qed.

(** Two games two hours or more apart never conflict. *)
Lemma conflicts_with_outside_window (g : game_row) (gameDate : Z)
      (gameLat gameLng : option R) :
  twoHours <= Z.abs (gameDate - game_date g) ->
  conflicts_with gameDate gameLat gameLng g = false.
Proof.
  intros H. unfold conflicts_with.
  destruct (Z.ltb_spec (Z.abs (gameDate - game_date g)) twoHours); [lia|].
  reflexivity.
Qed.

(** Inside the window without usable coordinates: a conflict. *)
Lemma conflicts_with_no_coordinates (g : game_row) (gameDate : Z)
      (gameLat gameLng : option R) :
  usable_coordinates gameLat gameLng (latitude g) (longitude g) = None ->
  conflicts_with gameDate gameLat gameLng g
  = (Z.abs (gameDate - game_date g) <? twoHours).
Proof.
  intros H. unfold conflicts_with. rewrite H.
  destruct (_ <? _); reflexivity.
Qed.

(** Inside the window with usable coordinates: the required gap decides. *)
Lemma conflicts_with_coordinates (g : game_row) (gameDate : Z)
      (gameLat gameLng : option R) (a b c d : R) :
  usable_coordinates gameLat gameLng (latitude g) (longitude g)
  = Some (a, b, c, d) ->
  Z.abs (gameDate - game_date g) < twoHours ->
  (conflicts_with gameDate gameLat gameLng g = true
   <-> (IZR (Z.abs (gameDate - game_date g))
        < requiredBuffer (calculateDistance a b c d))%R).
Proof.
  intros Hu Hw. unfold conflicts_with. rewrite Hu.
  destruct (Z.ltb_spec (Z.abs (gameDate - game_date g)) twoHours); [|lia].
  destruct (Rlt_dec _ _); split; intros; try reflexivity; try assumption;
    try discriminate; contradiction.
Qed.

End ConflictDetector.


(** ** Claims on conflict detection and the distance filter *)

Section ConflictClaims.
Import Schema UmpireDashboard Samples.


(** One assignment inside the window whose required gap is not met, or
    that has no usable coordinates, is a conflict. *)
Lemma conflicts_with_gap_not_met (g : game_row) (gameDate : Z)
      (gameLat gameLng : option R) :
  Z.abs (gameDate - game_date g) < twoHours ->
  match usable_coordinates gameLat gameLng (latitude g) (longitude g) with
  | None => True
  | Some (lat1, lon1, lat2, lon2) =>
      (IZR (Z.abs (gameDate - game_date g))
       < requiredBuffer (calculateDistance lat1 lon1 lat2 lon2))%R
  end ->
  conflicts_with gameDate gameLat gameLng g = true.
Proof.
  intros Hw Hgap. unfold conflicts_with.
  destruct (Z.ltb_spec (Z.abs (gameDate - game_date g)) twoHours); [|lia].
  destruct (usable_coordinates gameLat gameLng (latitude g) (longitude g))
    as [[[[a b] c] d]|]; [|reflexivity].
  destruct (Rlt_dec _ _); [reflexivity|contradiction].
Qed.



(** The other direction of the amended C2: with usable coordinates and
    the required gap met, the pair is not a conflict. *)
Lemma same_slot_gap_met_no_conflict (g : game_row) (gameDate : Z)
      (gameLat gameLng : option R) (a b c d : R) :
  usable_coordinates gameLat gameLng (latitude g) (longitude g)
  = Some (a, b, c, d) ->
  (requiredBuffer (calculateDistance a b c d)
   <= IZR (Z.abs (gameDate - game_date g)))%R ->
  checkDoubleBooking [g] gameDate gameLat gameLng = false.
Proof.
  intros Hu Hgap. simpl.
  destruct (conflicts_with gameDate gameLat gameLng g) eqn:Hc;
    [|reflexivity].
  destruct (Z.lt_ge_cases (Z.abs (gameDate - game_date g)) twoHours)
    as [Hw|Hw].
  - apply (conflicts_with_coordinates _ _ _ _ a b c d) in Hc;
      [lra|assumption|assumption].
  - rewrite conflicts_with_outside_window in Hc by assumption.
    discriminate.
Qed.

(** Whatever the venues, games less than one hour apart conflict. *)
Lemma within_one_hour_conflict (myGames : list game_row) (g : game_row)
      (gameDate : Z) (gameLat gameLng : option R) :
  In g myGames ->
  Z.abs (gameDate - game_date g) < 3600000 ->
  checkDoubleBooking myGames gameDate gameLat gameLng = true.
Proof.
  intros Hin Hlt.
  apply (checkDoubleBooking_In _ g); [assumption|].
  apply conflicts_with_gap_not_met.
  - unfold twoHours. lia.
  - destruct (usable_coordinates _ _ _ _) as [[[[a b] c] d]|]; [|exact I].
    pose proof (requiredBuffer_at_least_one_hour
                  _ (calculateDistance_nonneg a b c d)) as Hb.
    apply IZR_lt in Hlt. lra.
Qed.

(** C8: with an assignment at instant [T] and venue L1, a candidate
    three hours later at a venue L2 with distance(L1, L2) = 30 miles
    is not a conflict, and a candidate 90 minutes later at L2 is one:
    60 minutes of travel plus the 60 minute buffer ask for 120. *)
Theorem thirty_miles_apart (g : game_row) (T : Z) (lat1 lon1 lat2 lon2 : R) :
  game_date g = T ->
  latitude g = Some lat1 ->
  longitude g = Some lon1 ->
  calculateDistance lat1 lon1 lat2 lon2 = 30%R ->
  checkDoubleBooking [g] (T + 3 * 3600000) (Some lat2) (Some lon2) = false
  /\ checkDoubleBooking [g] (T + 5400000) (Some lat2) (Some lon2) = true
  /\ requiredBuffer (calculateDistance lat1 lon1 lat2 lon2)
     = IZR (120 * 60000).
Proof.
  intros HT Hlat Hlon Hdist. repeat split.
  - simpl. rewrite conflicts_with_outside_window; [reflexivity|].
    rewrite HT. unfold twoHours. lia.
  - apply (checkDoubleBooking_In _ g); [left; reflexivity|].
    apply conflicts_with_gap_not_met.
    + rewrite HT. unfold twoHours. lia.
    + rewrite Hlat, Hlon.
      destruct (usable_coordinates (Some lat2) (Some lon2)
                                   (Some lat1) (Some lon1))
        as [[[[a b] c] d]|] eqn:Hu; [|exact I].
      apply usable_coordinates_inv in Hu.
      destruct Hu as (Ha & Hb & Hc & Hd).
      injection Ha as <-. injection Hb as <-.
      injection Hc as <-. injection Hd as <-.
      rewrite calculateDistance_sym, Hdist, requiredBuffer_30_miles, HT.
      replace (Z.abs (T + 5400000 - T)) with 5400000 by lia.
      lra.
  - rewrite Hdist, requiredBuffer_30_miles. simpl. lra.
Qed.

Lemma thirty_miles_apart_witness :
  calculateDistance 1 1 (north_of_1_1 30) 1 = 30%R
  /\ checkDoubleBooking [held_game 0 (Some 1%R) (Some 1%R)]
                        (0 + 3 * 3600000)
                        (Some (north_of_1_1 30)) (Some 1%R) = false
  /\ checkDoubleBooking [held_game 0 (Some 1%R) (Some 1%R)]
                        (0 + 5400000)
                        (Some (north_of_1_1 30)) (Some 1%R) = true.
Proof.
  assert (Hd : calculateDistance 1 1 (north_of_1_1 30) 1 = 30%R).
  { apply calculateDistance_meridian; [lra|].
    pose proof PI2_1. lra. }
  split; [exact Hd|].
  destruct (thirty_miles_apart (held_game 0 (Some 1%R) (Some 1%R)) 0
                               1 1 (north_of_1_1 30) 1
                               eq_refl eq_refl eq_refl Hd)
    as (Hfar & Hnear & _).
  split; assumption.
Defined.

(** C10: a coordinate that is exactly 0 counts as absent.  The distance
    filter keeps a game when one of its coordinates, or one of the
    umpire's home coordinates, is 0, whatever the maximum distance; and
    when every pair of candidate and assignment has a 0 coordinate the
    conflict check is the two-hour rule alone. *)
Theorem zero_coordinates_are_absent :
  (forall (availableGames : list game_row) (userLat userLng : option R)
          (maxDistance : R) (game : game_row),
      In game availableGames ->
      userLat = Some 0%R \/ userLng = Some 0%R
      \/ latitude game = Some 0%R \/ longitude game = Some 0%R ->
      In game (filteredGames availableGames userLat userLng maxDistance))
  /\ (forall (myGames : list game_row) (gameDate : Z)
             (gameLat gameLng : option R),
         (forall g, In g myGames ->
                    gameLat = Some 0%R \/ gameLng = Some 0%R
                    \/ latitude g = Some 0%R \/ longitude g = Some 0%R) ->
         checkDoubleBooking myGames gameDate gameLat gameLng
         = existsb (fun g => Z.abs (gameDate - game_date g) <? twoHours)
                   myGames).
Proof.
  split.
  - intros availableGames userLat userLng maxDistance game Hin Hz.
    unfold filteredGames. apply filter_In. split; [assumption|].
    unfold within_reach.
    destruct userLat as [ulat|], userLng as [ulng|],
             (latitude game) as [glat|], (longitude game) as [glng|];
      try reflexivity.
    assert (Hf : negb (truthy_number (Some ulat))
                 || negb (truthy_number (Some ulng))
                 || negb (truthy_number (Some glat))
                 || negb (truthy_number (Some glng)) = true).
    { destruct Hz as [H|[H|[H|H]]]; injection H as ->;
        rewrite truthy_number_zero; simpl;
        repeat (rewrite ?orb_true_r, ?orb_true_l); reflexivity. }
    rewrite Hf. reflexivity.
  - intros myGames gameDate gameLat gameLng Hz.
    rewrite checkDoubleBooking_existsb.
    induction myGames as [|g rest IH]; [reflexivity|].
    simpl. rewrite IH by (intros g' Hg'; apply Hz; right; assumption).
    rewrite conflicts_with_no_coordinates; [reflexivity|].
    apply usable_coordinates_zero. apply Hz. left. reflexivity.
Qed.

Lemma zero_coordinates_are_absent_witness :
  In (held_game 0 (Some 0%R) (Some 1%R))
     (filteredGames [held_game 0 (Some 0%R) (Some 1%R)]
                    (Some 1%R) (Some 1%R) 5)
  /\ checkDoubleBooking [held_game 0 (Some 0%R) (Some 1%R)] 5400000
                        (Some 1%R) (Some 1%R) = true
  /\ checkDoubleBooking [held_game 0 (Some 1%R) (Some 1%R)] 7200000
                        (Some 1%R) (Some 0%R) = false.
Proof.
  destruct zero_coordinates_are_absent as [Hfilter Hconflict].
  split; [|split].
  - apply Hfilter; [left; reflexivity|].
    right; right; left; reflexivity.
  - rewrite Hconflict; [reflexivity|].
    intros g [<-|[]]. right; right; left; reflexivity.
  - rewrite Hconflict; [reflexivity|].
    intros g [<-|[]]. right; left; reflexivity.
Defined.

End ConflictClaims.


(** ** The store operations and the games they leave *)

Section StoreFacts.
Import Schema.

(** An update reads the rows it filters on [id], so the [SELECT]
    policies apply to it as well, to the row before and after.  They add
    nothing to the [UPDATE] policies: what those admit is visible. *)
Lemma games_update_using_visible (st : store) (uid : uuid) (g : game_row) :
  games_update_using st uid g = true -> games_select_using st uid g = true.
Proof.
  unfold games_update_using, games_select_using, games_umpire_accept_using.
  destruct (games_coach_policy uid g), (games_employee_policy st uid);
    simpl; try reflexivity.
  intros H. rewrite H. apply orb_true_r.
Qed.

Lemma games_update_check_visible (st : store) (uid : uuid) (g : game_row) :
  games_update_check st uid g = true -> games_select_using st uid g = true.
Proof.
  unfold games_update_check, games_select_using, games_umpire_accept_check.
  destruct (games_coach_policy uid g), (games_employee_policy st uid);
    simpl; try reflexivity.
  intros H. apply andb_prop in H. destruct H as [H _].
  apply andb_prop in H. destruct H as [_ H]. rewrite H. reflexivity.
Qed.

(** A game may be inserted by its coach or by staff, who then see it. *)
Lemma games_insert_check_visible (st : store) (uid : uuid) (g : game_row) :
  games_insert_check st uid g = true -> games_select_using st uid g = true.
Proof.
  unfold games_insert_check, games_select_using.
  intros H. rewrite H. reflexivity.
Qed.

Lemma games_update_error (st : store) (uid : uuid) (p : games_patch)
      (gid : uuid) (st' : store) (e : pg_error) :
  games_update st uid p gid = (st', Some e) -> st' = st.
Proof.
  unfold games_update. destruct (forallb _ _); intros H; inversion H.
  reflexivity.
Qed.

(** A property of rows that the patch keeps on the rows it reaches is
    kept by the update. *)
Lemma games_update_forallb (P : game_row -> bool) (st : store) (uid : uuid)
      (p : games_patch) (gid : uuid) :
  (forall g, In g (games st) -> id g = gid -> P g = true ->
             P (apply_patch p g) = true) ->
  forallb P (games st) = true ->
  forallb P (games (fst (games_update st uid p gid))) = true.
Proof.
  intros Hp Hall. unfold games_update.
  destruct (forallb _ (filter _ _)); [|exact Hall].
  simpl. rewrite forallb_forall in *.
  intros g' Hin. apply in_map_iff in Hin. destruct Hin as (g & <- & Hg).
  destruct (games_update_target st uid gid g) eqn:Ht.
  - unfold games_update_target in Ht. apply andb_prop in Ht.
    destruct Ht as [Hid _]. apply Z.eqb_eq in Hid.
    apply Hp; auto.
  - auto.
Qed.

Lemma games_insert_forallb (P : game_row -> bool) (st : store)
      (uid coach : uuid) (date : Z) (loc opp : string) (s : game_status) :
  P (mk_game (next_uuid st) coach date loc opp s None None None) = true ->
  forallb P (games st) = true ->
  forallb P (games (fst (games_insert st uid coach date loc opp s))) = true.
Proof.
  intros Hnew Hall. unfold games_insert.
  destruct (games_insert_check _ _ _); [|exact Hall].
  simpl. rewrite forallb_app, Hall. simpl. rewrite Hnew. reflexivity.
Qed.

Lemma requests_insert_games (st : store) (uid gid coach : uuid)
      (s : request_status) :
  games (fst (requests_insert st uid gid coach s)) = games st.
Proof.
  unfold requests_insert. destruct (requests_insert_check _ _ _); reflexivity.
Qed.

Lemma requests_update_status_games (st : store) (uid : uuid)
      (s : request_status) (gid : uuid) :
  games (fst (requests_update_status st uid s gid)) = games st.
Proof. reflexivity. Qed.

Lemma ratings_insert_games (st : store) (uid : uuid) (now : Z)
      (gid coach ump : uuid) (score : Z) (c : option string) :
  games (fst (ratings_insert st uid now gid coach ump score c)) = games st.
Proof.
  unfold ratings_insert.
  destruct (negb (ratings_insert_check _ _ _)); [reflexivity|].
  destruct (negb (ratings_check _)); [reflexivity|].
  destruct (existsb _ _); reflexivity.
Qed.

Lemma ratings_update_games (st : store) (uid : uuid) (score : Z)
      (c : option string) (rid : uuid) :
  games (fst (ratings_update st uid score c rid)) = games st.
Proof. reflexivity. Qed.

Lemma leads_insert_games (st : store) (uid gid coach : uuid)
      (name : string) (contact : option string) (found : string)
      (note : option string) :
  games (fst (leads_insert st uid gid coach name contact found note))
  = games st.
Proof.
  unfold leads_insert.
  destruct (negb (leads_insert_check _ _ _)); [reflexivity|].
  destruct (negb (leads_game_exists _ _)); reflexivity.
Qed.

End StoreFacts.

(** ** The game invariant *)

Section GameInvariant.
Import Schema Lifecycle Samples.

Lemma provider_consistent_pending (i c : uuid) (t : Z) (l o : string) :
  provider_consistent (mk_game i c t l o pending None None None) = true.
Proof. reflexivity. Qed.

Lemma provider_consistent_completed (g : game_row) :
  provider_consistent (apply_patch (mk_patch (Some completed) None) g)
  = true.
Proof.
  unfold provider_consistent. simpl.
  destruct (is_some (assigned_umpire_id g)); reflexivity.
Qed.

Lemma provider_consistent_accepted (g : game_row) (uid : uuid) :
  provider_consistent
    (apply_patch (mk_patch (Some assigned) (Some (Some uid))) g) = true.
Proof. reflexivity. Qed.

Lemma provider_consistent_cancelled (g : game_row) :
  assigned_umpire_id g = None ->
  provider_consistent (apply_patch (mk_patch (Some cancelled) None) g)
  = true.
Proof. intros H. unfold provider_consistent. simpl. rewrite H. reflexivity. Qed.

(** Creating a game and its request. *)
Lemma create_keeps_consistent (st : store) (uid coach_sel : uuid) (date : Z)
      (loc opp : string) :
  all_games provider_consistent st = true ->
  forall st1 r,
    games_insert st uid coach_sel date loc opp pending = (st1, r) ->
    all_games provider_consistent st1 = true.
Proof.
  intros Hall st1 r Hins.
  change st1 with (fst (st1, r)). rewrite <- Hins.
  apply games_insert_forallb; [reflexivity|exact Hall].
Qed.

Lemma requests_insert_keeps_consistent (st : store) (uid gid c : uuid)
      (s : request_status) :
  all_games provider_consistent st = true ->
  forall st1 r,
    requests_insert st uid gid c s = (st1, r) ->
    all_games provider_consistent st1 = true.
Proof.
  intros Hall st1 r Hins. unfold all_games.
  change st1 with (fst (st1, r)). rewrite <- Hins, requests_insert_games.
  exact Hall.
Qed.

Lemma bulk_create_one_keeps_consistent (env : JsDate.js_env)
      (uid coach_sel : uuid) (acc : store * nat * nat)
      (game : BulkUploadGamesDialog.ParsedGame) :
  all_games provider_consistent (fst (fst acc)) = true ->
  all_games provider_consistent
    (fst (fst (BulkUploadGamesDialog.create_one env uid coach_sel acc game)))
  = true.
Proof.
  destruct acc as [[st ok] ko]. simpl. intros Hall.
  unfold BulkUploadGamesDialog.create_one.
  destruct (JsDate.date_parse env _) as [date|]; [|exact Hall].
  destruct (games_insert st uid coach_sel date _ _ pending)
    as [st1 [g|e]] eqn:Hins;
    pose proof (create_keeps_consistent _ _ _ _ _ _ Hall _ _ Hins) as H1;
    [|exact H1].
  destruct (requests_insert st1 uid (id g) coach_sel request_pending)
    as [st2 [e|]] eqn:Hreq;
    exact (requests_insert_keeps_consistent _ _ _ _ _ H1 _ _ Hreq).
Qed.

Lemma bulk_fold_keeps_consistent (env : JsDate.js_env)
      (uid coach_sel : uuid) (l : list BulkUploadGamesDialog.ParsedGame)
      (acc : store * nat * nat) :
  all_games provider_consistent (fst (fst acc)) = true ->
  all_games provider_consistent
    (fst (fst (fold_left (BulkUploadGamesDialog.create_one env uid coach_sel)
                         l acc))) = true.
Proof.
  revert acc. induction l as [|g rest IH]; intros acc Hall; [exact Hall|].
  simpl. apply IH. apply bulk_create_one_keeps_consistent. exact Hall.
Qed.

(** What [provider_consistent] says of a row. *)
Lemma provider_consistent_spec (g : game_row) :
  provider_consistent g = true
  <-> ((assigned_umpire_id g <> None ->
        status g = assigned \/ status g = completed)
       /\ (status g = assigned -> assigned_umpire_id g <> None)).
Proof.
  unfold provider_consistent.
  destruct (assigned_umpire_id g) as [u|], (status g); simpl;
    split; intros H; try reflexivity; try discriminate;
    try (split; intros; try discriminate; try congruence; auto);
    try (destruct H as [H1 H2]);
    try (exfalso; apply H2; reflexivity);
    try (destruct H1 as [H1|H1]; discriminate).
Qed.

(** C1, amended: in every game a provider is set only when the status
    is [assigned] or [completed], and an [assigned] game has one.  All
    handlers that write to the store keep this: creation (single and
    bulk), accept, confirm-and-rate, both branches of the pending
    wizard (the not-played branch when the game it cancels has no
    provider), and the rating dialogs. *)
Theorem provider_consistency_preserved (op : operation) (st : store) :
  all_games provider_consistent st = true ->
  cancels_unassigned op st ->
  all_games provider_consistent (fst (run op st)) = true.
Proof.
  intros Hall Hpre.
  destruct op as [user gameDateTime loc opp
                 |uid selectedCoachId gameDateTime loc opp
                 |env uid selectedCoachId parsedGames
                 |user myGames gameId gameDate gameLat gameLng
                 |now user currentGame score text noShow
                 |user currentGame gameCompleted name contact found note
                 |now user game score text
                 |now user game score text noShow]; simpl.
  - (* RequestUmpireDialog *)
    unfold RequestUmpireDialog.handleSubmit.
    destruct user as [uid|]; [|exact Hall].
    destruct gameDateTime as [date|]; [|exact Hall].
    destruct (games_insert st uid uid date loc opp pending)
      as [st1 [g|e]] eqn:Hins;
      pose proof (create_keeps_consistent _ _ _ _ _ _ Hall _ _ Hins) as H1;
      [|exact H1].
    destruct (requests_insert st1 uid (id g) uid request_pending)
      as [st2 [e|]] eqn:Hreq;
      exact (requests_insert_keeps_consistent _ _ _ _ _ H1 _ _ Hreq).
  - (* CreateGameRequestDialog *)
    unfold CreateGameRequestDialog.handleSubmit.
    destruct selectedCoachId as [sel|]; [|exact Hall].
    destruct gameDateTime as [date|]; [|exact Hall].
    destruct (games_insert st uid sel date loc opp pending)
      as [st1 [g|e]] eqn:Hins;
      pose proof (create_keeps_consistent _ _ _ _ _ _ Hall _ _ Hins) as H1;
      [|exact H1].
    destruct (requests_insert st1 uid (id g) sel request_pending)
      as [st2 [e|]] eqn:Hreq;
      exact (requests_insert_keeps_consistent _ _ _ _ _ H1 _ _ Hreq).
  - (* BulkUploadGamesDialog *)
    unfold BulkUploadGamesDialog.handleSubmit.
    destruct selectedCoachId as [sel|]; [|exact Hall].
    destruct (Nat.eqb _ 0); [exact Hall|].
    pose proof (bulk_fold_keeps_consistent
                  env uid sel (filter BulkUploadGamesDialog.valid parsedGames)
                  (st, O, O) Hall) as Hfold.
    destruct (fold_left _ _ _) as [[st1 ok] ko]. simpl in Hfold.
    destruct (Nat.ltb 0 ok); exact Hfold.
  - (* handleAcceptGame *)
    unfold UmpireDashboard.handleAcceptGame.
    destruct user as [uid|]; [|exact Hall].
    destruct (UmpireDashboard.checkDoubleBooking _ _ _ _); [exact Hall|].
    pose proof (games_update_forallb
                  provider_consistent st uid
                  (mk_patch (Some assigned) (Some (Some uid))) gameId
                  (fun g _ _ _ => provider_consistent_accepted g uid) Hall)
      as Hup.
    destruct (games_update st uid _ gameId) as [st1 [e|]]; exact Hup.
  - (* handleConfirmAndRate *)
    unfold PastGamesNotificationDialog.handleConfirmAndRate.
    destruct user as [uid|]; [|exact Hall].
    destruct currentGame as [game|]; [|exact Hall].
    destruct (negb noShow && (score =? 0)); [exact Hall|].
    pose proof (games_update_forallb
                  provider_consistent st uid
                  (mk_patch (Some completed) None)
                  (PastGamesNotificationDialog.id game)
                  (fun g _ _ _ => provider_consistent_completed g) Hall)
      as Hup.
    destruct (games_update st uid _ _) as [st1 [e|]]; [exact Hup|].
    simpl in Hup.
    match goal with
    | |- context [ratings_insert ?a ?b ?c ?d ?e ?f ?g ?h] =>
        pose proof (ratings_insert_games a b c d e f g h) as Hr;
        destruct (ratings_insert a b c d e f g h) as [st2 [e2|]]
    end; simpl in Hr; unfold all_games.
    + destruct (negb _); simpl; rewrite Hr; exact Hup.
    + simpl; rewrite Hr; exact Hup.
  - (* PastPendingGamesDialog *)
    unfold PastPendingGamesDialog.handleSubmit.
    destruct currentGame as [game|]; [|exact Hall].
    destruct user as [uid|]; [|exact Hall].
    simpl in Hpre.
    assert (Hcancel :
              gameCompleted <> Some true ->
              all_games provider_consistent
                (fst (games_update st uid (mk_patch (Some cancelled) None)
                                   (PastPendingGamesDialog.id game)))
              = true).
    { intros Hne. apply games_update_forallb; [|exact Hall].
      intros g Hin Hid _. apply provider_consistent_cancelled.
      apply Hpre; assumption. }
    destruct gameCompleted as [[|]|].
    + match goal with
      | |- context [leads_insert ?a ?b ?c ?d ?e ?f ?g ?h] =>
          pose proof (leads_insert_games a b c d e f g h) as Hl;
          destruct (leads_insert a b c d e f g h) as [st1 [e1|]]
      end; simpl in Hl.
      * unfold all_games. simpl. rewrite Hl. exact Hall.
      * assert (Hall1 : forallb provider_consistent (games st1) = true)
          by (rewrite Hl; exact Hall).
        pose proof (games_update_forallb
                      provider_consistent st1 uid
                      (mk_patch (Some completed) None)
                      (PastPendingGamesDialog.id game)
                      (fun g _ _ _ => provider_consistent_completed g) Hall1)
          as Hup.
        destruct (games_update st1 uid _ _) as [st2 [e|]]; exact Hup.
    + specialize (Hcancel ltac:(discriminate)).
      destruct (games_update st uid _ _) as [st1 [e|]]; exact Hcancel.
    + specialize (Hcancel ltac:(discriminate)).
      destruct (games_update st uid _ _) as [st1 [e|]]; exact Hcancel.
  - (* RateUmpireDialog, first form *)
    unfold RateUmpireDialog.handleSubmit_insert.
    destruct user as [uid|]; [|exact Hall].
    destruct (RateUmpireDialog.game_assigned_umpire_id game) as [ump|];
      [|exact Hall].
    destruct (score =? 0); [exact Hall|].
    match goal with
    | |- context [ratings_insert ?a ?b ?c ?d ?e ?f ?g ?h] =>
        pose proof (ratings_insert_games a b c d e f g h) as Hr;
        destruct (ratings_insert a b c d e f g h) as [st2 [e2|]]
    end; simpl in Hr; unfold all_games.
    + destruct (String.eqb _ _); simpl; rewrite Hr; exact Hall.
    + simpl; rewrite Hr; exact Hall.
  - (* RateUmpireDialog *)
    unfold RateUmpireDialog.handleSubmit.
    destruct user as [uid|]; [|exact Hall].
    destruct (RateUmpireDialog.game_assigned_umpire_id game) as [ump|];
      [|exact Hall].
    destruct (negb noShow && (score =? 0)); [exact Hall|].
    destruct (RateUmpireDialog.existing_rating game) as [existing|].
    + exact Hall.
    + match goal with
      | |- context [ratings_insert ?a ?b ?c ?d ?e ?f ?g ?h] =>
          pose proof (ratings_insert_games a b c d e f g h) as Hr;
          destruct (ratings_insert a b c d e f g h) as [st2 [e2|]]
      end; simpl in Hr; unfold all_games.
      * destruct (String.eqb _ _); simpl; rewrite Hr; exact Hall.
      * simpl; rewrite Hr; exact Hall.
Qed.

Lemma provider_consistency_preserved_witness :
  all_games provider_consistent (store_of [open_game] []) = true
  /\ cancels_unassigned
       (op_past_pending (Some 10)
          (Some (PastPendingGamesDialog.mk_past_pending
                   1 1000 "Field 1" "Tigers"))
          (Some false) "" "" "" "")
       (store_of [open_game] [])
  /\ all_games provider_consistent
       (fst (run (op_past_pending (Some 10)
                    (Some (PastPendingGamesDialog.mk_past_pending
                             1 1000 "Field 1" "Tigers"))
                    (Some false) "" "" "" "")
                 (store_of [open_game] []))) = true.
Proof.
  assert (Hpre : cancels_unassigned
                   (op_past_pending (Some 10)
                      (Some (PastPendingGamesDialog.mk_past_pending
                               1 1000 "Field 1" "Tigers"))
                      (Some false) "" "" "" "")
                   (store_of [open_game] [])).
  { simpl. intros _ g [<-|[]] _. reflexivity. }
  split; [reflexivity|]. split; [exact Hpre|].
  apply provider_consistency_preserved; [reflexivity|exact Hpre].
Defined.

(** C1, as the specification states it, fails: the played branch of the
    pending wizard completes a game that never had a provider, so a
    provider is no longer set exactly on [assigned] and [completed]
    games. *)
Lemma external_resolution_breaks_iff :
  all_games provider_iff_assigned_or_completed (store_of [open_game] [])
  = true
  /\ run (op_past_pending (Some 10)
            (Some (PastPendingGamesDialog.mk_past_pending
                     1 1000 "Field 1" "Tigers"))
            (Some true) "Pat Smith" "" "referral" "")
         (store_of [open_game] [])
     = (mk_store
          [mk_game 1 10 1000 "Field 1" "Tigers" completed None None None]
          [] []
          [mk_lead 100 1 10 "Pat Smith" None "referral" None]
          roles 101,
        toast_success "Game information saved!")
  /\ all_games provider_iff_assigned_or_completed
       (fst (run (op_past_pending (Some 10)
                    (Some (PastPendingGamesDialog.mk_past_pending
                             1 1000 "Field 1" "Tigers"))
                    (Some true) "Pat Smith" "" "referral" "")
                 (store_of [open_game] []))) = false.
Proof. repeat split. Qed.

End GameInvariant.


(** ** Accepting a game that is already taken *)

Section AcceptClaims.
Import Schema UmpireDashboard Samples.

Lemma filter_none {A : Type} (f : A -> bool) (l : list A) :
  (forall x, In x l -> f x = false) -> filter f l = [].
Proof.
  induction l as [|x xs IH]; intros H; [reflexivity|].
  simpl. rewrite (H x) by (left; reflexivity).
  apply IH. intros y Hy. apply H. right. exact Hy.
Qed.

Lemma map_if_none {A : Type} (f : A -> bool) (h : A -> A) (l : list A) :
  (forall x, In x l -> f x = false) ->
  map (fun x => if f x then h x else x) l = l.
Proof.
  induction l as [|x xs IH]; intros H; [reflexivity|].
  simpl. rewrite (H x) by (left; reflexivity).
  f_equal. apply IH. intros y Hy. apply H. right. exact Hy.
Qed.

(** An update that no policy admits on any matching row writes nothing
    and raises nothing. *)
Lemma games_update_no_target (st : store) (uid : uuid) (p : games_patch)
      (gid : uuid) :
  (forall g, In g (games st) -> id g = gid ->
             games_update_using st uid g = false) ->
  games_update st uid p gid = (st, None).
Proof.
  intros Hno.
  assert (Ht : forall g, In g (games st) ->
                         games_update_target st uid gid g = false).
  { intros g Hin. unfold games_update_target.
    destruct (Z.eqb_spec (id g) gid) as [Heq|]; [|reflexivity].
    simpl. apply Hno; assumption. }
  unfold games_update.
  rewrite (filter_none _ _ Ht). simpl.
  rewrite (map_if_none _ _ _ Ht). destruct st; reflexivity.
Qed.

(** The policies admit no update by a mere umpire of a game that has a
    provider. *)
Lemma taken_game_not_updatable (st : store) (uid : uuid) (g : game_row) :
  assigned_umpire_id g <> None ->
  coach_id g <> uid ->
  has_role st uid employee = false ->
  games_update_using st uid g = false.
Proof.
  intros Htaken Hcoach Hemp.
  unfold games_update_using, games_coach_policy, games_employee_policy,
    games_umpire_accept_using.
  rewrite Hemp.
  destruct (Z.eqb_spec uid (coach_id g)) as [Heq|_]; [congruence|].
  destruct (assigned_umpire_id g); [|congruence].
  simpl. rewrite andb_false_r. reflexivity.
Qed.

(** An umpire who accepts a game that already has a provider, and whose
    own schedule shows no conflict, is told the accept succeeded although
    no game row changed. *)
Lemma accept_of_taken_game (st : store) (uid : uuid)
      (myGames : list game_row) (gameId : uuid) (gameDate : Z)
      (gameLat gameLng : option R) :
  (forall g, In g (games st) -> id g = gameId ->
             assigned_umpire_id g <> None /\ coach_id g <> uid) ->
  has_role st uid employee = false ->
  checkDoubleBooking myGames gameDate gameLat gameLng = false ->
  handleAcceptGame st (Some uid) myGames gameId gameDate gameLat gameLng
  = (st, toast_success "Game accepted successfully!").
Proof.
  intros Htaken Hemp Hfree. unfold handleAcceptGame. rewrite Hfree.
  rewrite games_update_no_target.
  - unfold requests_update_status, requests_update_using. rewrite Hemp.
    rewrite (map_if_none (fun r => (request_game_id r =? gameId) && false))
      by (intros r _; apply andb_false_r).
    destruct st; reflexivity.
  - intros g Hin Hid. destruct (Htaken g Hin Hid).
    apply taken_game_not_updatable; assumption.
Qed.

(** C5 at a failing input: game 1 is assigned to umpire 7; umpire 8,
    with an empty schedule, accepts it.  The row is unchanged, no error
    is raised, and the page reports success. *)
Theorem accept_of_assigned_game_reports_success :
  status taken_game = assigned
  /\ assigned_umpire_id taken_game = Some 7
  /\ handleAcceptGame (store_of [taken_game] []) (Some 8) [] 1 1000
                      None None
     = (store_of [taken_game] [],
        toast_success "Game accepted successfully!").
Proof. repeat split. Qed.

End AcceptClaims.

(** ** Ratings *)

Section RatingClaims.
Import Schema Lifecycle Samples.

(** A score of 0 never passes: the policy or the [CHECK] constraint
    refuses the row before the unique index is consulted. *)
Lemma ratings_insert_score_zero (st : store) (uid : uuid) (now : Z)
      (gid coach ump : uuid) (c : option string) :
  ratings_insert st uid now gid coach ump 0 c
  = (st, Some insufficient_privilege)
  \/ ratings_insert st uid now gid coach ump 0 c
     = (st, Some check_violation).
Proof.
  unfold ratings_insert.
  destruct (negb (ratings_insert_check _ _ _)); [left; reflexivity|].
  right. reflexivity.
Qed.

(** C3 at a failing input: game 1 is completed and belongs to coach 10,
    who submits the no-show rating 0 for umpire 7.  The store refuses
    the row with a check violation, the dialog reports a failure and
    nothing is stored; the same insert with the score 1 is accepted. *)
Theorem no_show_rating_is_refused :
  ratings_insert (store_of [played_game] []) 10 2000 1 10 7 0 None
  = (store_of [played_game] [], Some check_violation)
  /\ RateUmpireDialog.handleSubmit
       (store_of [played_game] []) 2000 (Some 10)
       (RateUmpireDialog.mk_game_prop 1 (Some 7) None) 0 "" true
     = (store_of [played_game] [], toast_error "Failed to submit rating")
  /\ ratings_insert (store_of [played_game] []) 10 2000 1 10 7 1 None
     = (mk_store [played_game] [] [mk_rating 100 1 10 7 1 None 2000] []
                 roles 101,
        None).
Proof. repeat split. Qed.

(** *** At most one rating per game and coach *)

Lemma same_rating_key_spec (a b : rating_row) :
  same_rating_key a b = true <-> rating_key a = rating_key b.
Proof.
  unfold same_rating_key, rating_key. rewrite andb_true_iff, !Z.eqb_eq.
  split; [intros [-> ->]; reflexivity|intros H; inversion H; auto].
Qed.

Lemma existsb_same_rating_key (r : rating_row) (rs : list rating_row) :
  existsb (same_rating_key r) rs = true
  <-> In (rating_key r) (map rating_key rs).
Proof.
  rewrite existsb_exists, in_map_iff. split.
  - intros (x & Hin & Hk). exists x. split; [|assumption].
    symmetry. apply same_rating_key_spec. assumption.
  - intros (x & Hk & Hin). exists x. split; [assumption|].
    apply same_rating_key_spec. symmetry. assumption.
Qed.













End RatingClaims.


(** ** Confirming a lapsed assigned game *)

Section ConfirmClaims.
Import Schema Lifecycle Samples PastGamesNotificationDialog.

(** A coach's update of the rows they own reaches all of them. *)
Lemma games_update_owned (st : store) (uid : uuid) (p : games_patch)
      (gid : uuid) :
  (forall g, In g (games st) -> Schema.id g = gid -> coach_id g = uid) ->
  games_update st uid p gid
  = (with_games st
       (map (fun g => if Schema.id g =? gid then apply_patch p g else g)
            (games st)),
     None).
Proof.
  intros Hown.
  assert (Ht : forall g, In g (games st) ->
                         games_update_target st uid gid g
                         = (Schema.id g =? gid)).
  { intros g Hin. unfold games_update_target.
    destruct (Z.eqb_spec (Schema.id g) gid) as [Heq|]; [|reflexivity].
    simpl. unfold games_update_using, games_coach_policy.
    rewrite (Hown g Hin Heq), Z.eqb_refl. reflexivity. }
  unfold games_update.
  assert (Hchk : forallb (fun g => games_update_check st uid (apply_patch p g))
                         (filter (games_update_target st uid gid) (games st))
                 = true).
  { apply forallb_forall. intros g Hg. apply filter_In in Hg.
    destruct Hg as [Hin Htg]. rewrite (Ht g Hin) in Htg.
    apply Z.eqb_eq in Htg.
    unfold games_update_check, games_coach_policy. simpl.
    rewrite (Hown g Hin Htg), Z.eqb_refl. reflexivity. }
  rewrite Hchk. f_equal. f_equal.
  apply map_ext_in. intros g Hin. rewrite (Ht g Hin). reflexivity.
Qed.

(** C4, as the specification states it, fails: coach 10 confirms the
    assigned game 1 as a no-show.  The game is marked completed first;
    the rating 0 is then refused (a check violation, not a duplicate),
    the dialog reports a failure, and the game stays completed with no
    rating stored. *)
Lemma failed_rating_leaves_game_completed :
  status taken_game = assigned
  /\ handleConfirmAndRate (store_of [taken_game] []) 2000 (Some 10)
                          (Some (mk_past_game 1 1000 "Field 1" "Tigers" 7))
                          0 "" true
     = (store_of [played_game] [],
        toast_error "Failed to confirm game. Please try again.")
  /\ status played_game = completed.
Proof. repeat split. Qed.

(** C4, amended: a confirm marks the game completed first and submits
    the rating second.  With a 1 to 5 score by the coach who owns the
    game, and no rating stored for the pair, both writes succeed: the
    game is completed and the rating is stored.  When the update of the
    game is refused, no rating is submitted and the store is unchanged. *)
Theorem confirm_completes_then_rates :
  (forall (st : store) (now : Z) (uid : uuid) (game : PastGame)
          (score : Z) (text : string),
      1 <= score <= 5 ->
      (exists g, In g (games st) /\ Schema.id g = id game) ->
      (forall g, In g (games st) -> Schema.id g = id game ->
                 coach_id g = uid) ->
      ~ In (id game, uid) (map rating_key (ratings st)) ->
      snd (handleConfirmAndRate st now (Some uid) (Some game) score text
                                false)
      = toast_success "Game confirmed and rating submitted!"
      /\ games (fst (handleConfirmAndRate st now (Some uid) (Some game)
                                          score text false))
         = map (fun g => if Schema.id g =? id game
                         then apply_patch mark_completed g else g)
               (games st)
      /\ ratings (fst (handleConfirmAndRate st now (Some uid) (Some game)
                                            score text false))
         = (ratings st
            ++ [mk_rating (next_uuid st) (id game) uid
                          (assigned_umpire_id game) score (or_null text)
                          now])%list)
  /\ (forall (st : store) (now : Z) (uid : uuid) (game : PastGame)
             (score : Z) (text : string) (noShow : bool) (e : pg_error),
         snd (games_update st uid mark_completed (id game)) = Some e ->
         fst (handleConfirmAndRate st now (Some uid) (Some game) score text
                                   noShow) = st).
Proof.
  split.
  - intros st now uid game score text Hscore (g & Hg & Hid) Hown Hnew.
    unfold handleConfirmAndRate.
    destruct (Z.eqb_spec score 0); [lia|]. simpl.
    fold mark_completed. rewrite (games_update_owned st uid mark_completed _ Hown).
    set (st1 := with_games st _).
    set (r := mk_rating (next_uuid st1) (id game) uid
                        (assigned_umpire_id game) score (or_null text) now).
    assert (Hpol : ratings_insert_check st1 uid r = true).
    { unfold ratings_insert_check. simpl. rewrite Z.eqb_refl. simpl.
      apply existsb_exists.
      exists (apply_patch mark_completed g). split.
      - apply in_map_iff. exists g. split; [|assumption].
        rewrite Hid, Z.eqb_refl. reflexivity.
      - simpl. rewrite Hid, (Hown g Hg Hid), !Z.eqb_refl. reflexivity. }
    assert (Hchk : ratings_check r = true).
    { unfold ratings_check. simpl.
      apply andb_true_iff. split; apply Z.leb_le; lia. }
    assert (Hdup : existsb (same_rating_key r) (ratings st1) = false).
    { destruct (existsb (same_rating_key r) (ratings st1)) eqn:Hd;
        [|reflexivity].
      apply existsb_same_rating_key in Hd. contradiction. }
    unfold ratings_insert. fold r. rewrite Hpol, Hchk, Hdup. simpl.
    repeat split.
  - intros st now uid game score text noShow e Herr.
    unfold handleConfirmAndRate.
    destruct (negb noShow && (score =? 0)); [reflexivity|].
    fold mark_completed.
    destruct (games_update st uid mark_completed (id game)) as [st1 [e1|]] eqn:Hup;
      [|discriminate].
    simpl. apply (games_update_error _ _ _ _ _ _ Hup).
Qed.

Lemma confirm_completes_then_rates_witness :
  handleConfirmAndRate (store_of [taken_game] []) 2000 (Some 10)
                       (Some (mk_past_game 1 1000 "Field 1" "Tigers" 7))
                       4 "" false
  = (mk_store [played_game] [] [mk_rating 100 1 10 7 4 None 2000] []
              roles 101,
     toast_success "Game confirmed and rating submitted!")
  /\ snd (handleConfirmAndRate
            (store_of [taken_game] []) 2000 (Some 10)
            (Some (mk_past_game 1 1000 "Field 1" "Tigers" 7)) 4 "" false)
     = toast_success "Game confirmed and rating submitted!"
  /\ fst (handleConfirmAndRate
            (store_of [open_game] []) 2000 (Some 8)
            (Some (mk_past_game 1 1000 "Field 1" "Tigers" 8)) 4 "" false)
     = store_of [open_game] [].
Proof.
  destruct confirm_completes_then_rates as [Hok Hrefused].
  split; [reflexivity|]. split.
  - refine (proj1 (Hok (store_of [taken_game] []) 2000 10
                       (mk_past_game 1 1000 "Field 1" "Tigers" 7) 4 ""
                       _ _ _ _)).
    + lia.
    + exists taken_game. split; [left|]; reflexivity.
    + intros g [<-|[]] _. reflexivity.
    + intros [].
  - apply (Hrefused (store_of [open_game] []) 2000 8
                    (mk_past_game 1 1000 "Field 1" "Tigers" 8) 4 "" false
                    insufficient_privilege).
    reflexivity.
Defined.

End ConfirmClaims.

(** ** The edit window of a rating *)

Section EditWindowClaims.
Import Schema Samples RateUmpireDialog CoachDashboard.

(** The edit action is offered exactly while less than 24 hours have
    passed since the rating was created. *)
Lemma canEditRating_window (now : Z) (r : ExistingRating) :
  canEditRating now r = true <-> now - existing_created_at r < 86400000.
Proof.
  unfold canEditRating, differenceInHours. rewrite Z.ltb_lt.
  set (d := now - existing_created_at r).
  pose proof (Z.quot_rem' d 3600000) as Hqr.
  destruct (Z.le_gt_cases 0 d) as [Hpos|Hneg].
  - pose proof (Z.rem_bound_pos d 3600000 Hpos ltac:(lia)). lia.
  - pose proof (Z.rem_bound_pos_neg d 3600000 ltac:(lia) ltac:(lia)). lia.
Qed.



End EditWindowClaims.


(** ** The bulk import *)

Section BulkImportClaims.
Import Schema JsDate BulkUploadGamesDialog Samples.


Lemma append_not_empty (a b : string) (c : ascii) :
  (a ++ String c b)%string <> EmptyString.
Proof. destruct a; discriminate. Qed.

(** A date that parses is never the empty string. *)
Lemma parseExcelDate_date_not_empty (env : js_env) (v : js_value)
      (pdate ptime : string) :
  parseExcelDate env v = Some (pdate, ptime) -> pdate <> EmptyString.
Proof.
  unfold parseExcelDate. destruct (negb (truthy v)); [discriminate|].
  destruct v as [s|n].
  - destruct (date_parse env s) as [t|]; [|discriminate].
    intros H. injection H as <- _. unfold toISOString_date.
    destruct (civil_from_days _) as [[yy mm] dd].
    apply append_not_empty.
  - destruct (parse_date_code env n) as [dc|]; [|discriminate].
    intros H. injection H as <- _. apply append_not_empty.
Qed.


Lemma truthy_js_string (s : string) :
  s <> EmptyString -> truthy (js_string s) = true.
Proof. intros H. destruct s; [contradiction|reflexivity]. Qed.



(** A date-only string is read as UTC midnight while the time of day is
    read off the local clock: four hours west of UTC the row of the
    specification's example gets the time 20:00. *)
Example date_only_string_west_of_utc :
  parseRow utc (tigers_row "2025-06-01")
  = mk_parsed "Tigers" "Field 3" "2025-06-01" "18:00" true None
  /\ parseRow four_hours_west (tigers_row "2025-06-01")
     = mk_parsed "Tigers" "Field 3" "2025-06-01" "20:00" true None.
Proof. split; reflexivity. Qed.



End BulkImportClaims.


(** * Further properties *)

(** ** Distance, conflicts and the distance filter *)

Section DistanceAndConflicts.
Import Schema UmpireDashboard Samples.
Local Open Scope R_scope.



Lemma usable_coordinates_swap (la1 lo1 la2 lo2 : option R) :
  usable_coordinates la2 lo2 la1 lo1
  = match usable_coordinates la1 lo1 la2 lo2 with
    | Some (a, b, c, d) => Some (c, d, a, b)
    | None => None
    end.
Proof.
  unfold usable_coordinates.
  destruct la1 as [a|], lo1 as [b|], la2 as [c|], lo2 as [d|];
    try reflexivity.
  destruct (truthy_number (Some a)), (truthy_number (Some b)),
           (truthy_number (Some c)), (truthy_number (Some d));
    reflexivity.
Qed.

(** X2: conflict is symmetric.  Whether a candidate at the time and
    venue of [g1] conflicts with the assignment [g2] is whether a
    candidate at the time and venue of [g2] conflicts with [g1]. *)
Theorem conflict_is_symmetric (g1 g2 : game_row) :
  checkDoubleBooking [g2] (game_date g1) (latitude g1) (longitude g1)
  = checkDoubleBooking [g1] (game_date g2) (latitude g2) (longitude g2).
Proof.
  simpl.
  assert (H : conflicts_with (game_date g1) (latitude g1) (longitude g1) g2
              = conflicts_with (game_date g2) (latitude g2) (longitude g2)
                               g1).
  { unfold conflicts_with.
    replace (Z.abs (game_date g2 - game_date g1))
      with (Z.abs (game_date g1 - game_date g2))
      by (rewrite <- Z.abs_opp; f_equal; lia).
    destruct (Z.abs (game_date g1 - game_date g2) <? twoHours);
      [|reflexivity].
    rewrite (usable_coordinates_swap (latitude g1) (longitude g1)
                                     (latitude g2) (longitude g2)).
    destruct (usable_coordinates (latitude g1) (longitude g1)
                                 (latitude g2) (longitude g2))
      as [[[[a b] c] d]|]; [|reflexivity].
    rewrite (calculateDistance_sym c d a b). reflexivity. }
  rewrite H. reflexivity.
Qed.




(** X4: an umpire without home coordinates is shown every available
    game, in the order fetched; with coordinates the list shown is a
    part of the list fetched that only grows with the maximum
    distance. *)
Theorem filteredGames_degrades_to_all :
  (forall (availableGames : list game_row) (userLat userLng : option R)
          (maxDistance : R),
      userLat = None \/ userLng = None ->
      filteredGames availableGames userLat userLng maxDistance
      = availableGames)
  /\ (forall (availableGames : list game_row) (userLat userLng : option R)
             (d1 d2 : R) (game : game_row),
         d1 <= d2 ->
         In game (filteredGames availableGames userLat userLng d1) ->
         In game (filteredGames availableGames userLat userLng d2)
         /\ In game availableGames).
Proof.
  split.
  - intros availableGames userLat userLng maxDistance Hnone.
    unfold filteredGames.
    induction availableGames as [|g rest IH]; [reflexivity|].
    simpl. rewrite IH.
    assert (Hg : within_reach userLat userLng maxDistance g = true).
    { unfold within_reach.
      destruct Hnone as [-> | ->]; [reflexivity|].
      destruct userLat; reflexivity. }
    rewrite Hg. reflexivity.
  - intros availableGames userLat userLng d1 d2 game Hle Hin.
    unfold filteredGames in *. apply filter_In in Hin.
    destruct Hin as [Hin Hreach]. split; [|exact Hin].
    apply filter_In. split; [exact Hin|].
    unfold within_reach in *.
    destruct userLat as [ulat|], userLng as [ulng|],
             (latitude game) as [glat|], (longitude game) as [glng|];
      try reflexivity.
    destruct (negb _ || negb _ || negb _ || negb _); [reflexivity|].
    destruct (Rle_dec (calculateDistance ulat ulng glat glng) d1)
      as [Hd|]; [|discriminate].
    destruct (Rle_dec (calculateDistance ulat ulng glat glng) d2);
      [reflexivity|lra].
Qed.

Lemma filteredGames_degrades_to_all_witness :
  filteredGames [held_game 0 (Some 1) (Some 1)] None (Some 1) 5
  = [held_game 0 (Some 1) (Some 1)]
  /\ In (held_game 0 (Some 1) (Some 1))
        (filteredGames [held_game 0 (Some 1) (Some 1)]
                       (Some 1) (Some 1) 7).
Proof.
  destruct filteredGames_degrades_to_all as [Hall Hmono].
  split.
  - apply Hall. left. reflexivity.
  - refine (proj1 (Hmono [held_game 0 (Some 1) (Some 1)]
                         (Some 1) (Some 1) 5 7
                         (held_game 0 (Some 1) (Some 1)) _ _)); [lra|].
    unfold filteredGames. apply filter_In. split; [left; reflexivity|].
    unfold within_reach, held_game. cbn [latitude longitude].
    rewrite !truthy_number_nonzero by lra. simpl.
    rewrite calculateDistance_same.
    destruct (Rle_dec 0 5); [reflexivity|lra].
Defined.

End DistanceAndConflicts.


(** ** Ordered queries *)

Section OrderedQueries.
Import Ordering.

Lemma insert_by_perm {A : Type} (key : A -> Z) (x : A) (l : list A) :
  Permutation (x :: l) (insert_by key x l).
Proof.
  induction l as [|y rest IH]; simpl; [apply Permutation_refl|].
  destruct (key x <=? key y); [apply Permutation_refl|].
  apply perm_trans with (y :: x :: rest); [apply perm_swap|].
  apply perm_skip. exact IH.
Qed.

Lemma order_by_perm {A : Type} (key : A -> Z) (l : list A) :
  Permutation l (order_by key l).
Proof.
  induction l as [|x rest IH]; simpl; [apply perm_nil|].
  apply perm_trans with (x :: order_by key rest);
    [apply perm_skip; exact IH|apply insert_by_perm].
Qed.

Lemma In_order_by {A : Type} (key : A -> Z) (l : list A) (x : A) :
  In x (order_by key l) <-> In x l.
Proof.
  split; intros H.
  - apply (Permutation_in _ (Permutation_sym (order_by_perm key l))).
    exact H.
  - apply (Permutation_in _ (order_by_perm key l)). exact H.
Qed.

Lemma insert_by_ascending {A : Type} (key : A -> Z) (x : A) (l : list A) :
  ascending key l -> ascending key (insert_by key x l).
Proof.
  unfold ascending. induction l as [|y rest IH]; intros Hs; simpl.
  - constructor; constructor.
  - destruct (Z.leb_spec (key x) (key y)) as [Hle|Hgt].
    + constructor; [exact Hs|]. constructor. exact Hle.
    + inversion Hs as [|? ? Hrest Hhd]; subst.
      constructor; [apply IH; exact Hrest|].
      destruct rest as [|z rest']; simpl.
      * constructor. lia.
      * destruct (key x <=? key z); constructor; [lia|].
        inversion Hhd; subst. assumption.
Qed.

Lemma order_by_ascending {A : Type} (key : A -> Z) (l : list A) :
  ascending key (order_by key l).
Proof.
  induction l as [|x rest IH]; simpl; [constructor|].
  apply insert_by_ascending. exact IH.
Qed.

End OrderedQueries.

(** ** Fetching and accepting games *)

Section FetchAndAccept.
Import Schema Ordering UmpireDashboard UmpireDashboardData Samples.

Lemma game_status_eqb_eq (a b : game_status) :
  game_status_eqb a b = true <-> a = b.
Proof. destruct a, b; simpl; split; intros H; congruence. Qed.

Lemma is_some_false {A : Type} (x : option A) :
  is_some x = false <-> x = None.
Proof. destruct x; simpl; split; intros H; congruence. Qed.

Lemma option_uuid_eqb_eq (a b : option uuid) :
  option_uuid_eqb a b = true <-> a = b.
Proof.
  destruct a as [x|], b as [y|]; simpl; split; intros H;
    try congruence; try discriminate.
  - apply Z.eqb_eq in H. congruence.
  - injection H as ->. apply Z.eqb_refl.
Qed.

(** X5: for an umpire the list of available games holds exactly the
    games of the store that are pending, have no umpire and do not lie
    in the past, by ascending date. *)
Theorem availableGames_are_open (st : store) (uid : uuid) (now : Z) :
  has_role st uid umpire = true ->
  ascending game_date (availableGames st uid now)
  /\ forall g,
      In g (availableGames st uid now)
      <-> (In g (games st) /\ assigned_umpire_id g = None
           /\ status g = pending /\ now <= game_date g).
Proof.
  intros Hrole. split; [apply order_by_ascending|].
  intros g. unfold availableGames.
  rewrite In_order_by, filter_In, !andb_true_iff, negb_true_iff,
    is_some_false, game_status_eqb_eq, Z.leb_le.
  split.
  - intros (Hin & ((_ & Hnone) & Hpending) & Hdate). auto.
  - intros (Hin & Hnone & Hpending & Hdate).
    repeat split; try assumption.
    unfold games_select_using. rewrite Hrole, Hnone, Hpending. simpl.
    apply orb_true_r.
Qed.

Lemma availableGames_are_open_witness :
  has_role (store_of [open_game] []) 8 umpire = true
  /\ In open_game (availableGames (store_of [open_game] []) 8 500).
Proof.
  split; [reflexivity|].
  apply (proj2 (availableGames_are_open
                  (store_of [open_game] []) 8 500 eq_refl)).
  repeat split; [left; reflexivity|]. simpl. lia.
Defined.

(** An update of the one row with a given identity. *)
Lemma games_update_one (st : store) (uid : uuid) (p : games_patch)
      (g : game_row) :
  In g (games st) ->
  (forall g', In g' (games st) -> id g' = id g -> g' = g) ->
  games_update_using st uid g = true ->
  games_update_check st uid (apply_patch p g) = true ->
  games_update st uid p (id g)
  = (with_games st
       (map (fun x => if id x =? id g then apply_patch p x else x)
            (games st)),
     None).
Proof.
  intros Hin Huniq Husing Hcheck.
  assert (Ht : forall x, In x (games st) ->
                         games_update_target st uid (id g) x
                         = (id x =? id g)).
  { intros x Hx. unfold games_update_target.
    destruct (Z.eqb_spec (id x) (id g)) as [Heq|]; [|reflexivity].
    rewrite (Huniq x Hx Heq). simpl. exact Husing. }
  unfold games_update.
  assert (Hall : forallb (fun x => games_update_check st uid
                                                      (apply_patch p x))
                         (filter (games_update_target st uid (id g))
                                 (games st)) = true).
  { apply forallb_forall. intros x Hx. apply filter_In in Hx.
    destruct Hx as [Hx Htx]. rewrite (Ht x Hx) in Htx.
    apply Z.eqb_eq in Htx. rewrite (Huniq x Hx Htx). exact Hcheck. }
  rewrite Hall. f_equal. f_equal.
  apply map_ext_in. intros x Hx. rewrite (Ht x Hx). reflexivity.
Qed.

Lemma games_update_frame (st : store) (uid : uuid) (p : games_patch)
      (gid : uuid) :
  umpire_requests (fst (games_update st uid p gid)) = umpire_requests st
  /\ user_roles (fst (games_update st uid p gid)) = user_roles st.
Proof.
  unfold games_update. destruct (forallb _ _); split; reflexivity.
Qed.

Lemma has_role_same_roles (st st' : store) (uid : uuid) (r : app_role) :
  user_roles st' = user_roles st -> has_role st' uid r = has_role st uid r.
Proof. intros H. unfold has_role. rewrite H. reflexivity. Qed.

(** X6: an umpire who accepts a game of the freshly fetched list, with
    no conflict in the schedule, gets it: the page reports success, the
    game of that identity becomes [assigned] to the umpire and all other
    games stay as they were; the game then shows in the umpire's own
    schedule and in nobody's list of available games. *)
Theorem accept_of_available_game
        (st : store) (uid : uuid) (now : Z) (myGames : list game_row)
        (g : game_row) (gameLat gameLng : option R) :
  has_role st uid umpire = true ->
  In g (availableGames st uid now) ->
  (forall g', In g' (games st) -> id g' = id g -> g' = g) ->
  checkDoubleBooking myGames (game_date g) gameLat gameLng = false ->
  let result :=
    handleAcceptGame st (Some uid) myGames (id g) (game_date g)
                     gameLat gameLng in
  snd result = toast_success "Game accepted successfully!"
  /\ games (fst result)
     = map (fun x => if id x =? id g
                     then apply_patch (accepted_by uid) x else x)
           (games st)
  /\ In (apply_patch (accepted_by uid) g)
        (UmpireDashboardData.myGames (fst result) uid)
  /\ forall uid' now' g',
      In g' (availableGames (fst result) uid' now') -> id g' <> id g.
Proof.
  intros Hrole Hav Huniq Hfree.
  apply (proj2 (availableGames_are_open st uid now Hrole)) in Hav.
  destruct Hav as (Hin & Hnone & Hpending & _).
  assert (Hres : handleAcceptGame st (Some uid) myGames (id g)
                                  (game_date g) gameLat gameLng
                 = (with_games
                      (with_requests
                         st
                         (umpire_requests
                            (fst (requests_update_status
                                    (with_games
                                       st
                                       (map (fun x =>
                                               if id x =? id g
                                               then apply_patch
                                                      (accepted_by uid) x
                                               else x) (games st)))
                                    uid request_accepted (id g)))))
                      (map (fun x => if id x =? id g
                                     then apply_patch (accepted_by uid) x
                                     else x) (games st)),
                    toast_success "Game accepted successfully!")).
  { unfold handleAcceptGame. rewrite Hfree. fold (accepted_by uid).
    rewrite (games_update_one st uid (accepted_by uid) g Hin Huniq).
    - reflexivity.
    - unfold games_update_using, games_umpire_accept_using.
      rewrite Hrole, Hnone, Hpending. simpl. apply orb_true_r.
    - unfold games_update_check, games_umpire_accept_check. simpl.
      rewrite Hrole, Z.eqb_refl. simpl. apply orb_true_r. }
  cbv zeta. rewrite Hres. cbn [fst snd games with_games].
  split; [reflexivity|]. split; [reflexivity|].
  assert (Hpatched : In (apply_patch (accepted_by uid) g)
                        (map (fun x => if id x =? id g
                                       then apply_patch (accepted_by uid) x
                                       else x) (games st))).
  { apply in_map_iff. exists g. rewrite Z.eqb_refl. auto. }
  split.
  - unfold UmpireDashboardData.myGames. apply In_order_by.
    apply filter_In. split; [exact Hpatched|].
    cbn [games with_games].
    apply andb_true_iff. split.
    + unfold games_select_using. simpl. rewrite Z.eqb_refl.
      rewrite orb_true_r. reflexivity.
    + simpl. apply Z.eqb_refl.
  - intros uid' now' g' Hg' Heq.
    unfold availableGames in Hg'. apply In_order_by in Hg'.
    apply filter_In in Hg'. destruct Hg' as [Hg'in Hcond].
    cbn [games with_games] in Hg'in.
    apply in_map_iff in Hg'in. destruct Hg'in as (x & Hx & Hxin).
    destruct (Z.eqb_spec (id x) (id g)) as [Hid|Hid].
    + subst g'. simpl in Hcond.
      rewrite !andb_true_iff in Hcond.
      destruct Hcond as [[[_ Hc] _] _]. discriminate.
    + subst g'. contradiction.
Qed.

Lemma accept_of_available_game_witness :
  has_role (store_of [open_game] []) 8 umpire = true
  /\ handleAcceptGame (store_of [open_game] []) (Some 8) [] 1 1000
                      None None
     = (store_of [mk_game 1 10 1000 "Field 1" "Tigers" assigned (Some 8)
                          None None] [],
        toast_success "Game accepted successfully!")
  /\ snd (handleAcceptGame (store_of [open_game] []) (Some 8) []
                           (id open_game) (game_date open_game) None None)
     = toast_success "Game accepted successfully!".
Proof.
  split; [reflexivity|]. split; [reflexivity|].
  refine (proj1 (accept_of_available_game
                   (store_of [open_game] []) 8 500 [] open_game None None
                   eq_refl _ _ eq_refl)).
  - apply (proj2 (availableGames_are_open
                    (store_of [open_game] []) 8 500 eq_refl)).
    repeat split; [left; reflexivity|]. simpl. lia.
  - intros g' [<-|[]] _. reflexivity.
Defined.

(** X7: when the accepting user is not staff, no request row changes:
    the policies on [umpire_requests] let only staff update them. *)
Theorem accept_leaves_requests (st : store) (uid : uuid)
        (myGames : list game_row) (gameId : uuid) (gameDate : Z)
        (gameLat gameLng : option R) :
  has_role st uid employee = false ->
  umpire_requests
    (fst (handleAcceptGame st (Some uid) myGames gameId gameDate
                           gameLat gameLng))
  = umpire_requests st.
Proof.
  intros Hemp. unfold handleAcceptGame.
  destruct (checkDoubleBooking _ _ _ _); [reflexivity|].
  pose proof (games_update_frame
                st uid (mk_patch (Some assigned) (Some (Some uid))) gameId)
    as [Hreq Hroles].
  destruct (games_update st uid _ gameId) as [st1 [e|]];
    simpl in Hreq, Hroles; [exact Hreq|].
  unfold requests_update_status, requests_update_using. simpl.
  rewrite (has_role_same_roles st st1 uid employee Hroles), Hemp.
  rewrite (map_if_none (fun r => (request_game_id r =? gameId) && false))
    by (intros r _; apply andb_false_r).
  exact Hreq.
Qed.

Lemma accept_leaves_requests_witness :
  has_role (mk_store [open_game] [mk_request 2 1 10 request_pending] [] []
                     roles 100) 8 employee = false
  /\ umpire_requests
       (fst (handleAcceptGame
               (mk_store [open_game] [mk_request 2 1 10 request_pending]
                         [] [] roles 100)
               (Some 8) [] 1 1000 None None))
     = [mk_request 2 1 10 request_pending].
Proof.
  split; [reflexivity|].
  apply (accept_leaves_requests
           (mk_store [open_game] [mk_request 2 1 10 request_pending] [] []
                     roles 100) 8 [] 1 1000 None None).
  reflexivity.
Defined.

(** X8: of two accepts of one game the first wins.  After umpire [a]
    took the game, an accept by another user [b], who is neither staff
    nor the coach of the game, changes no game, whatever [b]'s schedule:
    the game stays with [a]. *)
Theorem second_accept_changes_nothing
        (st : store) (a b : uuid) (now : Z) (myGames myGames' : list game_row)
        (g : game_row) (gameLat gameLng : option R) (gameDate' : Z)
        (gameLat' gameLng' : option R) :
  has_role st a umpire = true ->
  In g (availableGames st a now) ->
  (forall g', In g' (games st) -> id g' = id g -> g' = g) ->
  checkDoubleBooking myGames (game_date g) gameLat gameLng = false ->
  has_role st b employee = false ->
  coach_id g <> b ->
  let st1 :=
    fst (handleAcceptGame st (Some a) myGames (id g) (game_date g)
                          gameLat gameLng) in
  games (fst (handleAcceptGame st1 (Some b) myGames' (id g) gameDate'
                               gameLat' gameLng'))
  = games st1
  /\ forall g', In g' (games st1) -> id g' = id g ->
                assigned_umpire_id g' = Some a.
Proof.
  intros Hrole Hav Huniq Hfree Hemp Hcoach st1.
  assert (Hgames : games st1
                   = map (fun x => if id x =? id g
                                   then apply_patch (accepted_by a) x
                                   else x) (games st)).
  { subst st1. unfold handleAcceptGame. rewrite Hfree.
    apply (proj2 (availableGames_are_open st a now Hrole)) in Hav.
    destruct Hav as (Hin & Hnone & Hpending & _).
    fold (accepted_by a).
    rewrite (games_update_one st a (accepted_by a) g Hin Huniq).
    - reflexivity.
    - unfold games_update_using, games_umpire_accept_using.
      rewrite Hrole, Hnone, Hpending. simpl. apply orb_true_r.
    - unfold games_update_check, games_umpire_accept_check. simpl.
      rewrite Hrole, Z.eqb_refl. simpl. apply orb_true_r. }
  assert (Hroles : user_roles st1 = user_roles st).
  { subst st1. unfold handleAcceptGame. rewrite Hfree.
    pose proof (games_update_frame
                  st a (mk_patch (Some assigned) (Some (Some a))) (id g))
      as [_ Hr].
    destruct (games_update st a _ (id g)) as [st' [e|]]; exact Hr. }
  assert (Htaken : forall g', In g' (games st1) -> id g' = id g ->
                              assigned_umpire_id g' = Some a
                              /\ coach_id g' = coach_id g).
  { intros g' Hg' Hid. rewrite Hgames in Hg'.
    apply in_map_iff in Hg'. destruct Hg' as (x & Hx & Hxin).
    destruct (Z.eqb_spec (id x) (id g)) as [Hxid|Hxid].
    - subst g'. rewrite (Huniq x Hxin Hxid). split; reflexivity.
    - subst g'. contradiction. }
  split; [|intros g' Hg' Hid; apply (Htaken g' Hg' Hid)].
  destruct (checkDoubleBooking myGames' gameDate' gameLat' gameLng')
    eqn:Hfree'.
  - unfold handleAcceptGame. rewrite Hfree'. reflexivity.
  - rewrite (accept_of_taken_game st1 b myGames' (id g) gameDate'
                                  gameLat' gameLng'); [reflexivity| | |].
    + intros g' Hg' Hid. destruct (Htaken g' Hg' Hid) as [Ha Hc].
      split; congruence.
    + rewrite (has_role_same_roles st st1 b employee Hroles). exact Hemp.
    + exact Hfree'.
Qed.

Lemma second_accept_changes_nothing_witness :
  games (fst (handleAcceptGame
                (fst (handleAcceptGame (store_of [open_game] []) (Some 7) []
                                       (id open_game) (game_date open_game)
                                       None None))
                (Some 8) [] (id open_game) 1000 None None))
  = games (fst (handleAcceptGame (store_of [open_game] []) (Some 7) []
                                 (id open_game) (game_date open_game)
                                 None None)).
Proof.
  refine (proj1 (second_accept_changes_nothing
                   (store_of [open_game] []) 7 8 500 [] [] open_game
                   None None 1000 None None eq_refl _ _ eq_refl eq_refl _)).
  - apply (proj2 (availableGames_are_open
                    (store_of [open_game] []) 7 500 eq_refl)).
    repeat split; [left; reflexivity|]. simpl. lia.
  - intros g' [<-|[]] _. reflexivity.
  - simpl. lia.
Defined.

End FetchAndAccept.


(** ** Creating games *)

Section CreateGames.
Import Schema Samples.

(** The store after a game for [coach_sel] and its request were added. *)
Lemma create_pair (st : store) (uid coach_sel : uuid) (date : Z)
      (loc opp : string) :
  (uid =? coach_sel) || has_role st uid employee = true ->
  exists g st1,
    g = mk_game (next_uuid st) coach_sel date loc opp pending None None None
    /\ games_insert st uid coach_sel date loc opp pending = (st1, inl g)
    /\ requests_insert st1 uid (id g) coach_sel request_pending
       = (mk_store (games st ++ [g])
                   (umpire_requests st
                    ++ [mk_request (next_uuid st + 1) (next_uuid st)
                                   coach_sel request_pending])
                   (ratings st) (external_umpire_leads st) (user_roles st)
                   (next_uuid st + 1 + 1),
          None).
Proof.
  intros Hallowed. eexists. eexists. split; [reflexivity|].
  unfold games_insert, games_insert_check, games_coach_policy,
    games_employee_policy. cbn [coach_id]. rewrite Hallowed.
  split; [reflexivity|].
  unfold requests_insert, requests_insert_check, has_role.
  cbn [request_coach_id user_roles]. fold (has_role st uid employee).
  rewrite Hallowed. reflexivity.
Qed.

(** X9: a signed-in user who picked a date always gets the request
    through: the store gains one pending game of theirs without an
    umpire and one pending request that points to it; without a user or
    a date the form does nothing. *)
Theorem request_creates_game_and_request
        (st : store) (uid : uuid) (date : Z) (loc opp : string) :
  RequestUmpireDialog.handleSubmit st (Some uid) (Some date) loc opp
  = (mk_store
       (games st
        ++ [mk_game (next_uuid st) uid date loc opp pending None None None])
       (umpire_requests st
        ++ [mk_request (next_uuid st + 1) (next_uuid st) uid
                       request_pending])
       (ratings st) (external_umpire_leads st) (user_roles st)
       (next_uuid st + 1 + 1),
     toast_success "Umpire request submitted successfully!")
  /\ RequestUmpireDialog.handleSubmit st None (Some date) loc opp
     = (st, no_toast)
  /\ RequestUmpireDialog.handleSubmit st (Some uid) None loc opp
     = (st, no_toast).
Proof.
  split; [|split; reflexivity].
  destruct (create_pair st uid uid date loc opp) as (g & st1 & -> & Hg & Hr).
  { rewrite Z.eqb_refl. reflexivity. }
  unfold RequestUmpireDialog.handleSubmit. rewrite Hg. cbn [id] in *.
  rewrite Hr. reflexivity.
Qed.


End CreateGames.

(** ** The pending wizard *)

Section PendingWizard.
Import Schema Lifecycle Samples PastPendingGamesDialog.
Import PastPendingWizard(cancel_patch).



(** X12: the not-played branch, for a game the signed-in coach owns:
    the game is cancelled and no lead is written.  The branch is taken
    for the answer "no" and also while no answer is chosen. *)
Theorem not_played_branch_cancels
        (st : store) (uid : uuid) (game : PastPendingGame)
        (answer : option bool) (name contact found note : string) :
  answer <> Some true ->
  (forall g, In g (games st) -> Schema.id g = id game -> coach_id g = uid) ->
  handleSubmit st (Some uid) (Some game) answer name contact found note
  = (with_games st
       (map (fun g => if Schema.id g =? id game
                      then apply_patch cancel_patch g else g)
            (games st)),
     toast_success "Game marked as cancelled")
  /\ external_umpire_leads
       (fst (handleSubmit st (Some uid) (Some game) answer name contact
                          found note))
     = external_umpire_leads st.
Proof.
  intros Hanswer Hown.
  assert (H : handleSubmit st (Some uid) (Some game) answer name contact
                           found note
              = (with_games st
                   (map (fun g => if Schema.id g =? id game
                                  then apply_patch cancel_patch g else g)
                        (games st)),
                 toast_success "Game marked as cancelled")).
  { unfold handleSubmit. fold cancel_patch.
    destruct answer as [[|]|]; [contradiction| |];
      rewrite games_update_owned by exact Hown; reflexivity. }
  rewrite H. split; reflexivity.
Qed.

Lemma not_played_branch_cancels_witness :
  handleSubmit (store_of [open_game] []) (Some 10)
               (Some (mk_past_pending 1 1000 "Field 1" "Tigers"))
               (Some false) "" "" "" ""
  = (store_of [mk_game 1 10 1000 "Field 1" "Tigers" cancelled None None
                       None] [],
     toast_success "Game marked as cancelled").
Proof.
  refine (proj1 (not_played_branch_cancels
                   (store_of [open_game] []) 10
                   (mk_past_pending 1 1000 "Field 1" "Tigers")
                   (Some false) "" "" "" "" _ _)).
  - discriminate.
  - intros g [<-|[]] _. reflexivity.
Defined.

(** X13: the played branch for a game that is not in the store writes
    nothing: the lead is refused and the game update is not tried. *)
Theorem played_branch_unknown_game
        (st : store) (uid : uuid) (game : PastPendingGame)
        (name contact found note : string) :
  (forall g, In g (games st) -> Schema.id g <> id game) ->
  handleSubmit st (Some uid) (Some game) (Some true) name contact found note
  = (st, toast_error "Failed to save game information").
Proof.
  intros Hmissing. unfold handleSubmit, leads_insert.
  destruct (negb (leads_insert_check _ _ _)); [reflexivity|].
  assert (Hex : leads_game_exists
                  st (mk_lead (next_uuid st) (id game) uid (trim name)
                              (or_null (trim contact)) found
                              (or_null (trim note))) = false).
  { unfold leads_game_exists. cbn [lead_game_id].
    destruct (existsb (fun g => Schema.id g =? id game) (games st)) eqn:He;
      [|reflexivity].
    apply existsb_exists in He. destruct He as (g & Hg & Hid).
    apply Z.eqb_eq in Hid. exfalso. apply (Hmissing g Hg Hid). }
  rewrite Hex. reflexivity.
Qed.

Lemma played_branch_unknown_game_witness :
  handleSubmit (store_of [open_game] []) (Some 10)
               (Some (mk_past_pending 2 1000 "Field 1" "Tigers"))
               (Some true) "Pat Smith" "" "referral" ""
  = (store_of [open_game] [],
     toast_error "Failed to save game information").
Proof.
  apply (played_branch_unknown_game
           (store_of [open_game] []) 10
           (mk_past_pending 2 1000 "Field 1" "Tigers")
           "Pat Smith" "" "referral" "").
  intros g [<-|[]]. simpl. lia.
Defined.

Lemma games_update_leads (st : store) (uid : uuid) (p : games_patch)
      (gid : uuid) :
  external_umpire_leads (fst (games_update st uid p gid))
  = external_umpire_leads st.
Proof. unfold games_update. destruct (forallb _ _); reflexivity. Qed.

(** X14: while the submit button is enabled, a lead the wizard stores
    has a name that is not blank and a discovery channel. *)
Theorem enabled_submit_stores_named_lead
        (st : store) (user : option uuid) (games : list PastPendingGame)
        (d : PastPendingWizard.dialog) (l : lead_row) :
  PastPendingWizard.canSubmit d = true ->
  In l (external_umpire_leads
          (fst (fst (PastPendingWizard.handleSubmit st user games d)))) ->
  In l (external_umpire_leads st)
  \/ (umpire_name l <> EmptyString /\ how_found l <> EmptyString).
Proof.
  intros Hcan Hin.
  unfold PastPendingWizard.handleSubmit in Hin.
  unfold PastPendingWizard.canSubmit, canSubmit in Hcan.
  unfold handleSubmit in Hin.
  destruct (PastPendingWizard.currentGame games d) as [game|];
    [|left; exact Hin].
  destruct user as [uid|]; [|left; exact Hin].
  destruct (PastPendingWizard.gameCompleted d) as [[|]|];
    [| |discriminate Hcan].
  - apply andb_true_iff in Hcan. destruct Hcan as [Hname Hfound].
    unfold leads_insert in Hin.
    destruct (negb (leads_insert_check _ _ _)); [left; exact Hin|].
    destruct (negb (leads_game_exists _ _)); [left; exact Hin|].
    match type of Hin with
    | context [games_update ?s ?u ?p ?i] =>
        pose proof (games_update_leads s u p i) as Hl;
        destruct (games_update s u p i) as [st2 [e|]]
    end; simpl in Hl, Hin; rewrite Hl in Hin;
      (apply in_app_or in Hin; destruct Hin as [Hold|[<-|[]]];
       [left; exact Hold|right]);
      (cbn [umpire_name how_found]; split;
       [destruct (trim (PastPendingWizard.umpireName d));
        [discriminate Hname|discriminate]
       |destruct (PastPendingWizard.howFound d);
        [discriminate Hfound|discriminate]]).
  - pose proof (games_update_leads st uid (mk_patch (Some cancelled) None)
                                   (id game)) as Hl.
    destruct (games_update st uid _ (id game)) as [st1 [e|]];
      simpl in Hl, Hin; left; rewrite Hl in Hin; exact Hin.
Qed.

Lemma enabled_submit_stores_named_lead_witness :
  PastPendingWizard.canSubmit
    (PastPendingWizard.mk_dialog 0 (Some true) "Pat Smith" "" "referral" ""
                                 true 0) = true
  /\ (In (mk_lead 100 1 10 "Pat Smith" None "referral" None)
         (external_umpire_leads (store_of [open_game] []))
      \/ (umpire_name (mk_lead 100 1 10 "Pat Smith" None "referral" None)
          <> EmptyString
          /\ how_found (mk_lead 100 1 10 "Pat Smith" None "referral" None)
             <> EmptyString)).
Proof.
  split; [reflexivity|].
  apply (enabled_submit_stores_named_lead
           (store_of [open_game] []) (Some 10)
           [mk_past_pending 1 1000 "Field 1" "Tigers"]
           (PastPendingWizard.mk_dialog 0 (Some true) "Pat Smith" ""
                                        "referral" "" true 0)).
  - reflexivity.
  - left. reflexivity.
Defined.

End PendingWizard.


(** ** More on the bulk import *)

Section BulkImport.
Import Schema JsDate BulkUploadGamesDialog BulkCounts Samples.

(** X15: a row is valid exactly when it has an opponent, a location and
    a date: a date cell that is not empty, or a combined cell that
    parses.  The text of the date cell need not parse.  A row is valid
    exactly when it carries no error text. *)
Theorem parseRow_valid_iff (env : js_env) (r : row) :
  valid (parseRow env r)
  = truthy (first_truthy r opponent_keys (js_string ""))
    && truthy (first_truthy r location_keys (js_string ""))
    && (truthy (first_truthy r date_keys (js_string ""))
        || is_some (parseExcelDate
                      env (first_truthy r datetime_keys (js_string ""))))
  /\ (valid (parseRow env r) = true <-> error (parseRow env r) = None).
Proof.
  unfold parseRow.
  set (opp := first_truthy r opponent_keys (js_string "")).
  set (loc := first_truthy r location_keys (js_string "")).
  set (dv := first_truthy r date_keys (js_string "")).
  set (tv := first_truthy r time_keys (js_string "18:00")).
  set (dtv := first_truthy r datetime_keys (js_string "")).
  assert (Hdate :
            exists pd pt,
              (if truthy dtv
               then match parseExcelDate env dtv with
                    | Some (pdate, ptime) =>
                        (js_string pdate, js_string ptime)
                    | None => (dv, tv)
                    end
               else if truthy dv
                    then match parseExcelDate env dv with
                         | Some (pdate, ptime) =>
                             (js_string pdate,
                              if negb (String.eqb ptime "00:00")
                              then js_string ptime else tv)
                         | None => (dv, tv)
                         end
                    else (dv, tv)) = (pd, pt)
              /\ truthy pd
                 = truthy dv || is_some (parseExcelDate env dtv)).
  { destruct (truthy dtv) eqn:Hdtv.
    - destruct (parseExcelDate env dtv) as [[pdate ptime]|] eqn:Hp.
      + eexists. eexists. split; [reflexivity|].
        rewrite (truthy_js_string
                   _ (parseExcelDate_date_not_empty _ _ _ _ Hp)).
        simpl. rewrite orb_true_r. reflexivity.
      + eexists. eexists. split; [reflexivity|].
        simpl. rewrite orb_false_r. reflexivity.
    - assert (Hnone : parseExcelDate env dtv = None)
        by (unfold parseExcelDate; rewrite Hdtv; reflexivity).
      rewrite Hnone. simpl is_some. rewrite orb_false_r.
      destruct (truthy dv) eqn:Hdv.
      + destruct (parseExcelDate env dv) as [[pdate ptime]|] eqn:Hp.
        * eexists. eexists. split; [reflexivity|].
          apply (truthy_js_string
                   _ (parseExcelDate_date_not_empty _ _ _ _ Hp)).
        * eexists. eexists. split; [reflexivity|]. exact Hdv.
      + eexists. eexists. split; [reflexivity|]. exact Hdv. }
  destruct Hdate as (pd & pt & -> & ->).
  destruct (truthy opp), (truthy loc),
           (truthy dv || is_some (parseExcelDate env dtv));
    simpl; split; try reflexivity; split; intros H;
    try reflexivity; discriminate.
Qed.

Lemma filter_partition_length {A : Type} (f : A -> bool) (l : list A) :
  (List.length (filter f l)
   + List.length (filter (fun x => negb (f x)) l))%nat
  = List.length l.
Proof.
  induction l as [|x rest IH]; [reflexivity|].
  simpl. destruct (f x); simpl; lia.
Qed.

(** X16: the preview holds one entry per row of the sheet, in the order
    of the sheet; valid and invalid entries add up to the rows, and the
    notice is the success notice exactly when no entry is invalid. *)
Theorem preview_covers_every_row (env : js_env) (jsonData : list row) :
  fst (handleFileUpload env jsonData) = map (parseRow env) jsonData
  /\ List.length (fst (handleFileUpload env jsonData))
     = List.length jsonData
  /\ (List.length (filter valid (fst (handleFileUpload env jsonData)))
      + List.length (filter (fun g => negb (valid g))
                            (fst (handleFileUpload env jsonData))))%nat
     = List.length jsonData
  /\ (forallb valid (fst (handleFileUpload env jsonData)) = true
      <-> snd (handleFileUpload env jsonData)
          = toast_success ("Parsed " ++ count (List.length jsonData)
                           ++ " games successfully")).
Proof.
  unfold handleFileUpload. cbn [fst snd].
  split; [reflexivity|]. split; [apply length_map|].
  split; [rewrite filter_partition_length; apply length_map|].
  rewrite length_map.
  set (games := map (parseRow env) jsonData).
  assert (Hinv : forallb valid games = true
                 <-> filter (fun g => negb (valid g)) games = []).
  { induction games as [|g rest IH]; simpl; [tauto|].
    destruct (valid g); simpl; [exact IH|].
    split; intros H; discriminate. }
  split.
  - intros Hall. apply Hinv in Hall. rewrite Hall. reflexivity.
  - intros Hnotice. apply Hinv.
    destruct (filter (fun g => negb (valid g)) games); [reflexivity|].
    simpl in Hnotice. discriminate.
Qed.

(** One turn of the creation loop. *)
Lemma create_one_step (env : js_env) (uid sel : uuid) (s : store)
      (a b : nat) (game : ParsedGame) :
  create_one env uid sel (s, a, b) game
  = if parses env game && ((uid =? sel) || has_role s uid employee)
    then
      (mk_store
         (games s
          ++ [mk_game (next_uuid s) sel
                      (match date_parse env (date game ++ "T" ++ time game)
                       with Some t => t | None => 0 end)
                      (location game) (opponent game) pending None None
                      None])
         (umpire_requests s
          ++ [mk_request (next_uuid s + 1) (next_uuid s) sel
                         request_pending])
         (ratings s) (external_umpire_leads s) (user_roles s)
         (next_uuid s + 1 + 1),
       S a, b)
    else (s, a, S b).
Proof.
  unfold create_one, parses.
  destruct (date_parse env (date game ++ "T" ++ time game)) as [t|];
    [|reflexivity].
  simpl is_some. cbn [andb].
  destruct ((uid =? sel) || has_role s uid employee) eqn:Hallowed.
  - destruct (create_pair s uid sel t (location game) (opponent game)
                          Hallowed) as (g & s1 & -> & Hg & Hr).
    rewrite Hg. cbn [id] in *. rewrite Hr. reflexivity.
  - unfold games_insert, games_insert_check, games_coach_policy,
      games_employee_policy. cbn [coach_id]. rewrite Hallowed. reflexivity.
Qed.

(** The loop, for a caller whose permission is [allowed]. *)
Lemma create_loop (env : js_env) (uid sel : uuid) (st : store)
      (l : list ParsedGame) (s : store) (a b : nat) :
  user_roles s = user_roles st ->
  exists s',
    fold_left (create_one env uid sel) l (s, a, b)
    = (s',
       (a + created_count env st uid sel l)%nat,
       (b + (List.length l
             - created_count env st uid sel l))%nat)
    /\ user_roles s' = user_roles st
    /\ List.length (games s')
       = (List.length (games s)
          + created_count env st uid sel l)%nat
    /\ List.length (umpire_requests s')
       = (List.length (umpire_requests s)
          + created_count env st uid sel l)%nat
    /\ ratings s' = ratings s
    /\ external_umpire_leads s' = external_umpire_leads s
    /\ (created_count env st uid sel l = O -> s' = s).
Proof.
  unfold created_count, may_create.
  revert s a b. induction l as [|game rest IH]; intros s a b Hroles.
  - exists s. simpl.
    destruct ((uid =? sel) || has_role st uid employee);
      rewrite !Nat.add_0_r; repeat split; try reflexivity; assumption.
  - cbn [fold_left]. rewrite create_one_step.
    assert (Hrole : has_role s uid employee = has_role st uid employee)
      by (unfold has_role; rewrite Hroles; reflexivity).
    rewrite Hrole.
    assert (Hlen : (List.length (filter (parses env) rest)
                    <= List.length rest)%nat) by apply filter_length_le.
    destruct ((uid =? sel) || has_role st uid employee) eqn:Hallowed.
    + destruct (parses env game) eqn:Hp; cbn [andb].
      * match goal with
        | |- context [fold_left _ rest (?s1, _, _)] =>
            destruct (IH s1 (S a) b Hroles)
            as (s' & Hfold & Hr & Hg & Hq & Hra & Hle & Hzero)
        end.
        exists s'. rewrite Hfold. simpl filter. rewrite Hp.
        cbn [games umpire_requests ratings external_umpire_leads] in *.
        rewrite !length_app in *. simpl List.length in *.
        repeat split; try assumption; try lia.
        apply f_equal2; [apply f_equal2; [reflexivity|lia]|lia].
      * destruct (IH s a (S b) Hroles)
          as (s' & Hfold & Hr & Hg & Hq & Hra & Hle & Hzero).
        exists s'. rewrite Hfold. simpl filter. rewrite Hp.
        simpl List.length.
        repeat split; try assumption; f_equal; lia.
    + rewrite andb_false_r.
      destruct (IH s a (S b) Hroles)
        as (s' & Hfold & Hr & Hg & Hq & Hra & Hle & Hzero).
      exists s'. rewrite Hfold. simpl List.length.
      repeat split; try assumption; f_equal; lia.
Qed.

(** X17: games and requests are created in pairs.  For a caller who is
    staff (or the chosen coach) every valid row whose date and time
    parse yields one game and one request, and the other valid rows are
    counted as failed; for any other caller nothing is created.
    Ratings and leads are untouched, the notice carries the two counts,
    and when no game was created the store is as before. *)
Theorem bulk_creation_counts
        (env : js_env) (st : store) (uid sel : uuid)
        (parsedGames : list ParsedGame) :
  let validGames := filter valid parsedGames in
  let created := created_count env st uid sel validGames in
  let failed := (List.length validGames - created)%nat in
  let result := handleSubmit env st uid (Some sel) parsedGames in
  List.length (games (fst result))
  = (List.length (games st) + created)%nat
  /\ List.length (umpire_requests (fst result))
     = (List.length (umpire_requests st) + created)%nat
  /\ ratings (fst result) = ratings st
  /\ external_umpire_leads (fst result) = external_umpire_leads st
  /\ (created = O -> fst result = st)
  /\ snd result
     = (if Nat.eqb (List.length validGames) 0
        then toast_error "No valid games to upload"
        else if Nat.ltb 0 created
             then toast_success
                    ("Created " ++ count created ++ " games successfully"
                     ++ (if Nat.ltb 0 failed
                         then ", " ++ count failed ++ " failed" else ""))
             else toast_error "Failed to create any games").
Proof.
  intros validGames created failed result.
  subst result. unfold handleSubmit. fold validGames.
  destruct (Nat.eqb (List.length validGames) 0) eqn:Hempty.
  - assert (Hnil : validGames = []).
    { destruct validGames; [reflexivity|discriminate]. }
    subst created. unfold created_count. rewrite Hnil. simpl.
    destruct (may_create st uid sel);
      rewrite !Nat.add_0_r; repeat split; reflexivity.
  - destruct (create_loop env uid sel st validGames st O O eq_refl)
      as (s' & Hfold & _ & Hg & Hq & Hra & Hle & Hzero).
    fold created in Hfold, Hg, Hq, Hzero.
    rewrite Hfold. simpl Nat.add. fold failed.
    destruct (Nat.ltb 0 created); cbn [fst snd];
      repeat split; assumption.
Qed.

End BulkImport.


(** ** More on ratings and the confirm wizard *)

Section RatingsAndConfirm.
Import Schema Lifecycle Ordering Samples.
Import RateUmpireDialog CoachDashboard CoachDashboardData.

(** X18: what the rating cell of a game card shows.  Nothing unless the
    game is completed and has an umpire; the rate button while the coach
    has no rating for it; otherwise the edit button while less than
    86400000 milliseconds have passed since the rating was created (also
    when the creation instant lies ahead of the clock), and the plain
    label after that. *)
Theorem rating_cell_cases (now : Z) (game : Game) :
  rating_cell now game
  = if game_status_eqb (status (row game)) completed
       && is_some (assigned_umpire_id (row game))
    then
      Some (match CoachDashboardData.existing_rating game with
            | None => rate_button
            | Some r =>
                if now - existing_created_at r <? 86400000
                then edit_button else rated_label
            end)
    else None.
Proof.
  unfold rating_cell.
  destruct (game_status_eqb _ _ && is_some _); [|reflexivity].
  unfold GameRatingDisplay, as_game_prop.
  cbn [RateUmpireDialog.existing_rating].
  destruct (CoachDashboardData.existing_rating game) as [r|];
    [|reflexivity].
  destruct (Z.ltb_spec (now - existing_created_at r) 86400000) as [Hlt|Hge].
  - rewrite (proj2 (canEditRating_window now r) Hlt). reflexivity.
  - destruct (canEditRating now r) eqn:Hc; [|reflexivity].
    apply canEditRating_window in Hc. lia.
Qed.

(** What a confirm with a 1 to 5 score writes, for the coach who owns
    the game. *)
Lemma confirm_by_owner (st : store) (now : Z) (uid : uuid)
      (game : PastGamesNotificationDialog.PastGame) (score : Z)
      (text : string) :
  1 <= score <= 5 ->
  (exists g, In g (games st)
             /\ id g = PastGamesNotificationDialog.id game) ->
  (forall g, In g (games st) ->
             id g = PastGamesNotificationDialog.id game ->
             coach_id g = uid) ->
  PastGamesNotificationDialog.handleConfirmAndRate
    st now (Some uid) (Some game) score text false
  = (let st1 :=
       with_games
         st (map (fun g => if id g =? PastGamesNotificationDialog.id game
                           then apply_patch mark_completed g else g)
                 (games st)) in
     if existsb
          (same_rating_key
             (mk_rating (next_uuid st)
                        (PastGamesNotificationDialog.id game) uid
                        (PastGamesNotificationDialog.assigned_umpire_id game)
                        score (or_null text) now))
          (ratings st)
     then st1
     else
       mk_store (games st1) (umpire_requests st) (ratings st
                 ++ [mk_rating
                       (next_uuid st)
                       (PastGamesNotificationDialog.id game) uid
                       (PastGamesNotificationDialog.assigned_umpire_id game)
                       score (or_null text) now])
                (external_umpire_leads st) (user_roles st)
                (next_uuid st + 1),
     toast_success "Game confirmed and rating submitted!").
Proof.
  intros Hscore (g & Hg & Hid) Hown.
  unfold PastGamesNotificationDialog.handleConfirmAndRate.
  destruct (Z.eqb_spec score 0); [lia|]. cbn [negb andb].
  fold mark_completed.
  rewrite (games_update_owned st uid mark_completed _ Hown).
  set (st1 := with_games st _).
  set (r := mk_rating (next_uuid st1)
                      (PastGamesNotificationDialog.id game) uid
                      (PastGamesNotificationDialog.assigned_umpire_id game)
                      score (or_null text) now).
  assert (Hpol : ratings_insert_check st1 uid r = true).
  { unfold ratings_insert_check. simpl. rewrite Z.eqb_refl. simpl.
    apply existsb_exists.
    exists (apply_patch mark_completed g). split.
    - apply in_map_iff. exists g. split; [|assumption].
      rewrite Hid, Z.eqb_refl. reflexivity.
    - simpl. rewrite Hid, (Hown g Hg Hid), !Z.eqb_refl. reflexivity. }
  assert (Hchk : ratings_check r = true).
  { unfold ratings_check. simpl.
    apply andb_true_iff. split; apply Z.leb_le; lia. }
  unfold ratings_insert. fold r. rewrite Hpol, Hchk. cbn [negb].
  change (ratings st1) with (ratings st).
  change (mk_rating (next_uuid st) (PastGamesNotificationDialog.id game)
                    uid
                    (PastGamesNotificationDialog.assigned_umpire_id game)
                    score (or_null text) now) with r.
  destruct (existsb (same_rating_key r) (ratings st)); reflexivity.
Qed.

(** X19: a confirm for a game the coach has already rated is not an
    error.  The game is completed, the stored rating is kept as it is,
    the score given now is not stored, and the wizard reports
    success. *)
Theorem confirm_keeps_earlier_rating
        (st : store) (now : Z) (uid : uuid)
        (game : PastGamesNotificationDialog.PastGame) (score : Z)
        (text : string) :
  1 <= score <= 5 ->
  (exists g, In g (games st)
             /\ id g = PastGamesNotificationDialog.id game) ->
  (forall g, In g (games st) ->
             id g = PastGamesNotificationDialog.id game ->
             coach_id g = uid) ->
  In (PastGamesNotificationDialog.id game, uid)
     (map rating_key (ratings st)) ->
  PastGamesNotificationDialog.handleConfirmAndRate
    st now (Some uid) (Some game) score text false
  = (with_games
       st (map (fun g => if id g =? PastGamesNotificationDialog.id game
                         then apply_patch mark_completed g else g)
               (games st)),
     toast_success "Game confirmed and rating submitted!").
Proof.
  intros Hscore Hex Hown Hrated.
  rewrite (confirm_by_owner st now uid game score text Hscore Hex Hown).
  cbv zeta.
  match goal with
  | |- context [existsb (same_rating_key ?r) _] =>
      assert (Hdup : existsb (same_rating_key r) (ratings st) = true)
        by (apply existsb_same_rating_key; exact Hrated)
  end.
  rewrite Hdup. reflexivity.
Qed.

Lemma confirm_keeps_earlier_rating_witness :
  PastGamesNotificationDialog.handleConfirmAndRate
    (store_of [taken_game] [first_rating]) 2000 (Some 10)
    (Some (PastGamesNotificationDialog.mk_past_game
             1 1000 "Field 1" "Tigers" 7)) 2 "late" false
  = (store_of [played_game] [first_rating],
     toast_success "Game confirmed and rating submitted!").
Proof.
  apply (confirm_keeps_earlier_rating
           (store_of [taken_game] [first_rating]) 2000 10
           (PastGamesNotificationDialog.mk_past_game
              1 1000 "Field 1" "Tigers" 7) 2 "late").
  - lia.
  - exists taken_game. split; [left|]; reflexivity.
  - intros g [<-|[]] _. reflexivity.
  - left. reflexivity.
Defined.

Lemma In_keep_some {A B : Type} (f : A -> option B) (l : list A) (y : B) :
  In y (keep_some f l) <-> exists x, In x l /\ f x = Some y.
Proof.
  induction l as [|a rest IH]; simpl.
  - split; [intros []|intros (x & [] & _)].
  - destruct (f a) as [b|] eqn:Hfa; simpl; rewrite IH; split.
    + intros [<-|(x & Hx & Hfx)]; [exists a; auto|exists x; auto].
    + intros (x & [<-|Hx] & Hfx);
        [left; congruence|right; exists x; auto].
    + intros (x & Hx & Hfx). exists x; auto.
    + intros (x & [<-|Hx] & Hfx); [congruence|exists x; auto].
Qed.

(** X20: the queue of lapsed assigned games.  A game of the coach that
    is assigned and whose time has passed is handed to the wizard; once
    the coach has confirmed it with a 1 to 5 score, the next check does
    not hand it over again, whenever it is made. *)
Theorem confirmed_game_leaves_queue
        (st : store) (now : Z) (uid ump : uuid) (g : game_row) (score : Z)
        (text : string) :
  In g (games st) ->
  (forall g', In g' (games st) -> id g' = id g -> coach_id g' = uid) ->
  status g = assigned ->
  assigned_umpire_id g = Some ump ->
  game_date g < now ->
  1 <= score <= 5 ->
  let game :=
    PastGamesNotificationDialog.mk_past_game
      (id g) (game_date g) (location g) (opponent g) ump in
  In game (fst (checkPastGames st uid now))
  /\ snd (checkPastGames st uid now) = true
  /\ forall now' pg,
      In pg (fst (checkPastGames
                    (fst (PastGamesNotificationDialog.handleConfirmAndRate
                            st now (Some uid) (Some game) score text false))
                    uid now')) ->
      PastGamesNotificationDialog.id pg <> id g.
Proof.
  intros Hg Hown Hstatus Hump Hdate Hscore game.
  assert (Hin : In game (fst (checkPastGames st uid now))).
  { unfold checkPastGames. cbn [fst]. apply In_keep_some.
    exists g. split.
    - unfold pastGames. apply In_order_by. apply filter_In.
      split; [exact Hg|].
      unfold games_select_using, games_coach_policy.
      rewrite (Hown g Hg eq_refl), Z.eqb_refl, Hstatus, Hump.
      simpl. apply Z.ltb_lt. exact Hdate.
    - unfold as_PastGame. rewrite Hump. reflexivity. }
  split; [exact Hin|]. split.
  - unfold checkPastGames in *. cbn [fst snd] in *.
    destruct (keep_some as_PastGame (pastGames st uid now));
      [contradiction|reflexivity].
  - intros now' pg Hpg Hid.
    rewrite (confirm_by_owner st now uid game score text Hscore) in Hpg.
    + cbv zeta in Hpg. cbn [fst] in Hpg.
      unfold checkPastGames in Hpg. cbn [fst] in Hpg.
      apply In_keep_some in Hpg. destruct Hpg as (x & Hx & Hfx).
      unfold pastGames in Hx. apply In_order_by in Hx.
      apply filter_In in Hx. destruct Hx as [Hxin Hcond].
      assert (Hxid : id x = id g).
      { unfold as_PastGame in Hfx.
        destruct (assigned_umpire_id x); [|discriminate].
        injection Hfx as <-. exact Hid. }
      assert (Hcompleted : status x = completed).
      { assert (Hgames : In x (map (fun g0 =>
                                      if id g0 =? id g
                                      then apply_patch mark_completed g0
                                      else g0) (games st))).
        { destruct (existsb _ _); exact Hxin. }
        apply in_map_iff in Hgames. destruct Hgames as (y & Hy & Hyin).
        destruct (Z.eqb_spec (id y) (id g)) as [Hyid|Hyid].
        - subst x. reflexivity.
        - subst x. contradiction. }
      rewrite !andb_true_iff in Hcond.
      destruct Hcond as [[[_ Hassigned] _] _].
      rewrite Hcompleted in Hassigned. discriminate.
    + exists g. split; [exact Hg|reflexivity].
    + exact Hown.
Qed.

Lemma confirmed_game_leaves_queue_witness :
  In (PastGamesNotificationDialog.mk_past_game 1 1000 "Field 1" "Tigers" 7)
     (fst (checkPastGames (store_of [taken_game] []) 10 2000))
  /\ fst (checkPastGames
            (fst (PastGamesNotificationDialog.handleConfirmAndRate
                    (store_of [taken_game] []) 2000 (Some 10)
                    (Some (PastGamesNotificationDialog.mk_past_game
                             1 1000 "Field 1" "Tigers" 7)) 4 "" false))
            10 3000) = [].
Proof.
  split; [|reflexivity].
  refine (proj1 (confirmed_game_leaves_queue
                   (store_of [taken_game] []) 2000 10 7 taken_game 4 ""
                   _ _ eq_refl eq_refl _ _)).
  - left. reflexivity.
  - intros g' [<-|[]] _. reflexivity.
  - simpl. lia.
  - lia.
Defined.

Lemma filter_singleton {A : Type} (f : A -> bool) (x : A) :
  f x = true -> filter f [x] = [x].
Proof. intros H. simpl. rewrite H. reflexivity. Qed.

Lemma ratingsMap_get_last (l : list rating_row) (r : rating_row) :
  ratingsMap_get (l ++ [r]) (rating_game_id r) = Some r.
Proof.
  induction l as [|x rest IH]; simpl.
  - rewrite Z.eqb_refl. reflexivity.
  - rewrite IH. reflexivity.
Qed.

(** X21: a first rating round-trips to the dashboard.  When the coach
    rates their completed game with a 1 to 5 score, the dialog reports
    success, the next load of the dashboard shows the game with exactly
    that rating, and at that instant the cell offers the edit. *)
Theorem stored_rating_is_shown
        (st : store) (profiles : list Rpc.profile_row) (now : Z)
        (uid ump : uuid) (g : game_row) (score : Z) (text : string) :
  In g (games st) ->
  coach_id g = uid ->
  status g = completed ->
  assigned_umpire_id g = Some ump ->
  1 <= score <= 5 ->
  ~ In (id g, uid) (map rating_key (ratings st)) ->
  let result :=
    handleSubmit_insert st now (Some uid)
                        (mk_game_prop (id g) (Some ump) None) score text in
  snd result = toast_success "Rating submitted successfully!"
  /\ exists shown,
      In shown (fetchGames (fst result) profiles uid)
      /\ row shown = g
      /\ CoachDashboardData.existing_rating shown
         = Some (mk_existing (next_uuid st) score (or_null text) now)
      /\ rating_cell now shown = Some edit_button.
Proof.
  intros Hg Hcoach Hstatus Hump Hscore Hnew result.
  set (r := mk_rating (next_uuid st) (id g) uid ump score (or_null text)
                      now).
  assert (Hins : ratings_insert st uid now (id g) uid ump score
                                (or_null text)
                 = (mk_store (games st) (umpire_requests st)
                             (ratings st ++ [r])
                             (external_umpire_leads st) (user_roles st)
                             (next_uuid st + 1),
                    None)).
  { unfold ratings_insert. fold r.
    assert (Hpol : ratings_insert_check st uid r = true).
    { unfold ratings_insert_check. simpl. rewrite Z.eqb_refl. simpl.
      apply existsb_exists. exists g. split; [exact Hg|].
      rewrite Hcoach, Hstatus, !Z.eqb_refl. reflexivity. }
    assert (Hchk : ratings_check r = true).
    { unfold ratings_check. simpl.
      apply andb_true_iff. split; apply Z.leb_le; lia. }
    assert (Hdup : existsb (same_rating_key r) (ratings st) = false).
    { destruct (existsb (same_rating_key r) (ratings st)) eqn:Hd;
        [|reflexivity].
      apply existsb_same_rating_key in Hd. contradiction. }
    rewrite Hpol, Hchk, Hdup. reflexivity. }
  assert (Hres : result
                 = (mk_store (games st) (umpire_requests st)
                             (ratings st ++ [r])
                             (external_umpire_leads st) (user_roles st)
                             (next_uuid st + 1),
                    toast_success "Rating submitted successfully!")).
  { subst result. unfold handleSubmit_insert.
    cbn [game_assigned_umpire_id game_id].
    destruct (Z.eqb_spec score 0); [lia|]. rewrite Hins. reflexivity. }
  rewrite Hres. cbn [fst snd]. split; [reflexivity|].
  set (st' := mk_store _ _ _ _ _ _).
  eexists. split.
  - unfold fetchGames. apply in_map_iff. exists g. split; [reflexivity|].
    apply In_order_by. apply filter_In. split; [exact Hg|].
    unfold games_select_using, games_coach_policy.
    rewrite Hcoach, Z.eqb_refl. reflexivity.
  - cbn [row CoachDashboardData.existing_rating].
    split; [reflexivity|].
    assert (Hget : ratingsMap_get
                     (filter (fun r0 => ratings_select_using st' uid r0
                                        && (rating_coach_id r0 =? uid))
                             (ratings st')) (id g) = Some r).
    { subst st'. cbn [ratings]. rewrite filter_app.
      rewrite (filter_singleton _ r).
      - apply (ratingsMap_get_last _ r).
      - unfold ratings_select_using, r. cbn [rating_coach_id].
        rewrite Z.eqb_refl. reflexivity. }
    rewrite Hget. cbn [option_map]. split; [reflexivity|].
    unfold rating_cell, as_game_prop. cbn [row].
    rewrite Hstatus, Hump. cbn [game_status_eqb is_some andb].
    unfold GameRatingDisplay. cbn [RateUmpireDialog.existing_rating].
    cbn [CoachDashboardData.existing_rating].
    rewrite (proj2 (canEditRating_window now (as_ExistingRating r))).
    + reflexivity.
    + unfold as_ExistingRating, r. cbn [existing_created_at created_at].
      lia.
Qed.

Lemma stored_rating_is_shown_witness :
  snd (handleSubmit_insert (store_of [played_game] []) 2000 (Some 10)
                           (mk_game_prop (id played_game) (Some 7) None)
                           4 "good")
  = toast_success "Rating submitted successfully!"
  /\ fetchGames (fst (handleSubmit_insert
                        (store_of [played_game] []) 2000 (Some 10)
                        (mk_game_prop (id played_game) (Some 7) None)
                        4 "good")) [] 10
     = [mk_Game played_game None
                (Some (mk_existing 100 4 (Some "good") 2000))].
Proof.
  split; [|reflexivity].
  refine (proj1 (stored_rating_is_shown
                   (store_of [played_game] []) [] 2000 10 7 played_game
                   4 "good" _ eq_refl eq_refl eq_refl _ _)).
  - left. reflexivity.
  - lia.
  - intros [].
Defined.

(** X22: a rating is stored only for a completed game of the coach who
    submits it, with a score from 1 to 5; every other submit through the
    dialog leaves the store as it was. *)
Theorem rating_needs_completed_game
        (st : store) (now : Z) (user : option uuid) (game : game_prop)
        (score : Z) (text : string) :
  (snd (handleSubmit_insert st now user game score text)
   = toast_success "Rating submitted successfully!" ->
   exists uid ump g,
     user = Some uid
     /\ game_assigned_umpire_id game = Some ump
     /\ In g (games st) /\ id g = game_id game /\ coach_id g = uid
     /\ status g = completed
     /\ 1 <= score <= 5
     /\ ~ In (game_id game, uid) (map rating_key (ratings st))
     /\ ratings (fst (handleSubmit_insert st now user game score text))
        = (ratings st
           ++ [mk_rating (next_uuid st) (game_id game) uid ump score
                         (or_null text) now])%list)
  /\ (snd (handleSubmit_insert st now user game score text)
      <> toast_success "Rating submitted successfully!" ->
      fst (handleSubmit_insert st now user game score text) = st).
Proof.
  unfold handleSubmit_insert.
  destruct user as [uid|]; [|split; [discriminate|reflexivity]].
  destruct (game_assigned_umpire_id game) as [ump|];
    [|split; [discriminate|reflexivity]].
  destruct (score =? 0); [split; [discriminate|reflexivity]|].
  unfold ratings_insert.
  set (r := mk_rating (next_uuid st) (game_id game) uid ump score
                      (or_null text) now).
  destruct (ratings_insert_check st uid r) eqn:Hpol; cbn [negb];
    [|split; [discriminate|reflexivity]].
  destruct (ratings_check r) eqn:Hchk; cbn [negb];
    [|split; [discriminate|reflexivity]].
  destruct (existsb (same_rating_key r) (ratings st)) eqn:Hdup;
    [split; [discriminate|reflexivity]|].
  split; [|intros H; exfalso; apply H; reflexivity].
  intros _.
  unfold ratings_insert_check in Hpol. apply andb_true_iff in Hpol.
  destruct Hpol as [_ Hgame]. apply existsb_exists in Hgame.
  destruct Hgame as (g & Hg & Hcond).
  rewrite !andb_true_iff in Hcond. destruct Hcond as [[Hid Hcoach] Hstatus].
  apply Z.eqb_eq in Hid, Hcoach. cbn [rating_game_id r] in Hid.
  unfold ratings_check in Hchk. apply andb_true_iff in Hchk.
  destruct Hchk as [Hlo Hhi]. apply Z.leb_le in Hlo, Hhi.
  exists uid, ump, g.
  repeat split; try assumption.
  - destruct (status g); try discriminate. reflexivity.
  - intros Hin.
    apply (proj2 (existsb_same_rating_key r (ratings st))) in Hin.
    congruence.
Qed.

Lemma rating_needs_completed_game_witness :
  snd (handleSubmit_insert (store_of [taken_game] []) 2000 (Some 10)
                           (mk_game_prop 1 (Some 7) None) 4 "")
  <> toast_success "Rating submitted successfully!"
  /\ fst (handleSubmit_insert (store_of [taken_game] []) 2000 (Some 10)
                              (mk_game_prop 1 (Some 7) None) 4 "")
     = store_of [taken_game] [].
Proof.
  assert (H : snd (handleSubmit_insert
                     (store_of [taken_game] []) 2000 (Some 10)
                     (mk_game_prop 1 (Some 7) None) 4 "")
              <> toast_success "Rating submitted successfully!")
    by discriminate.
  split; [exact H|].
  exact (proj2 (rating_needs_completed_game
                  (store_of [taken_game] []) 2000 (Some 10)
                  (mk_game_prop 1 (Some 7) None) 4 "") H).
Defined.

End RatingsAndConfirm.


(** ** Walking through the confirm wizard *)

Section ConfirmWizard.
Import PastGamesWizard MoreSamples.

Lemma isLastGame_spec (games : list PastGamesNotificationDialog.PastGame)
      (d : dialog) :
  isLastGame games d = true <-> S (currentIndex d) = List.length games.
Proof. unfold isLastGame. rewrite Z.eqb_eq. lia. Qed.

(** X23: skipping from the first game shows every game once, in order,
    with an empty form; the skip on the last game closes the wizard and
    calls [onComplete] once. *)
Theorem skipping_visits_every_game
        (games : list PastGamesNotificationDialog.PastGame) (k : nat) :
  (k < List.length games)%nat ->
  Nat.iter k (handleSkip games) start = mk_dialog k 0 0 "" false true 0
  /\ currentGame games (Nat.iter k (handleSkip games) start)
     = nth_error games k
  /\ Nat.iter (List.length games) (handleSkip games) start
     = mk_dialog (List.length games - 1) 0 0 "" false false 1.
Proof.
  intros Hk.
  assert (Hwalk : forall j, (j < List.length games)%nat ->
                            Nat.iter j (handleSkip games) start
                            = mk_dialog j 0 0 "" false true 0).
  { induction j as [|j IH]; intros Hj; [reflexivity|].
    simpl. rewrite IH by lia. unfold handleSkip, next.
    destruct (isLastGame games (mk_dialog j 0 0 "" false true 0)) eqn:Hl.
    - apply isLastGame_spec in Hl. simpl in Hl. lia.
    - reflexivity. }
  split; [apply Hwalk; exact Hk|].
  split; [rewrite (Hwalk k Hk); reflexivity|].
  destruct (List.length games) as [|n] eqn:Hn; [lia|].
  simpl Nat.iter. rewrite Hwalk by lia. unfold handleSkip, next.
  destruct (isLastGame games (mk_dialog n 0 0 "" false true 0)) eqn:Hl.
  - simpl. rewrite Nat.sub_0_r. reflexivity.
  - assert (Hlast : isLastGame games (mk_dialog n 0 0 "" false true 0)
                    = true)
      by (apply isLastGame_spec; simpl; lia).
    congruence.
Qed.

Lemma skipping_visits_every_game_witness :
  (1 < List.length
         two_lapsed_games)%nat
  /\ currentGame
       two_lapsed_games
       (Nat.iter 1
          (handleSkip
             two_lapsed_games)
          start)
     = nth_error two_lapsed_games 1.
Proof.
  assert (H : (1 < List.length
                     two_lapsed_games)%nat) by (simpl; lia).
  split; [exact H|].
  exact (proj1 (proj2 (skipping_visits_every_game _ 1%nat H))).
Defined.

(** X24: the wizard never leaves the list.  From a game of the list,
    skip, previous and confirm all lead to a game of the list; previous
    undoes a skip that did not close the wizard, up to the cleared form;
    and a confirm that is not reported as a success leaves the wizard on
    the same game with the form as filled. *)
Theorem wizard_stays_in_range
        (st : Schema.store) (now : Z) (user : option uuid)
        (games : list PastGamesNotificationDialog.PastGame) (d : dialog) :
  (currentIndex d < List.length games)%nat ->
  (currentIndex (handleSkip games d) < List.length games)%nat
  /\ (currentIndex (handlePrevious d) < List.length games)%nat
  /\ (currentIndex (snd (handleConfirmAndRate st now user games d))
      < List.length games)%nat
  /\ (isLastGame games d = false ->
      handlePrevious (handleSkip games d) = resetForm d)
  /\ ((forall msg,
          snd (fst (handleConfirmAndRate st now user games d))
          <> toast_success msg) ->
      snd (handleConfirmAndRate st now user games d) = d).
Proof.
  intros Hrange.
  assert (Hnext : (currentIndex (next games d) < List.length games)%nat).
  { unfold next. destruct (isLastGame games d) eqn:Hl; [exact Hrange|].
    simpl.
    destruct (Nat.eq_dec (S (currentIndex d)) (List.length games)) as [He|];
      [|lia].
    apply isLastGame_spec in He. congruence. }
  split; [exact Hnext|]. split.
  { unfold handlePrevious. destruct (Nat.ltb 0 (currentIndex d));
      simpl; lia. }
  split.
  { unfold handleConfirmAndRate.
    destruct (PastGamesNotificationDialog.handleConfirmAndRate _ _ _ _ _ _ _)
      as [st1 notice].
    destruct notice; simpl; assumption. }
  split.
  { intros Hl. unfold handleSkip, next. rewrite Hl.
    unfold handlePrevious, resetForm. simpl.
    rewrite Nat.sub_0_r. reflexivity. }
  intros Hfail. unfold handleConfirmAndRate in *.
  destruct (PastGamesNotificationDialog.handleConfirmAndRate _ _ _ _ _ _ _)
    as [st1 notice].
  destruct notice as [msg| | |]; simpl in *; try reflexivity.
  exfalso. apply (Hfail msg). reflexivity.
Qed.

Lemma wizard_stays_in_range_witness :
  (currentIndex start
   < List.length
       two_lapsed_games)%nat
  /\ handlePrevious
       (handleSkip
          two_lapsed_games
          start)
     = resetForm start.
Proof.
  assert (H : (currentIndex start
               < List.length
                   two_lapsed_games)%nat) by (simpl; lia).
  split; [exact H|].
  refine (proj1 (proj2 (proj2 (proj2
            (wizard_stays_in_range
               (Samples.store_of [] []) 0 None _ start H)))) _).
  reflexivity.
Defined.

End ConfirmWizard.


(** ** The name of the assigned umpire *)

Section UmpireName.
Import Schema Rpc Samples.

Lemma game_by_id_found (st : store) (gid : uuid) (g : game_row) :
  game_by_id st gid = Some g -> In g (games st) /\ id g = gid.
Proof.
  unfold game_by_id. intros H. apply find_some in H.
  destruct H as [Hin Hid]. apply Z.eqb_eq in Hid. auto.
Qed.

Lemma game_by_id_unique (st : store) (g : game_row) :
  In g (games st) ->
  (forall g', In g' (games st) -> id g' = id g -> g' = g) ->
  game_by_id st (id g) = Some g.
Proof.
  intros Hin Huniq. unfold game_by_id.
  destruct (find (fun x => id x =? id g) (games st)) as [x|] eqn:Hf.
  - apply find_some in Hf. destruct Hf as [Hx Hid].
    apply Z.eqb_eq in Hid. rewrite (Huniq x Hx Hid). reflexivity.
  - exfalso. pose proof (find_none _ _ Hf g Hin) as Hn.
    simpl in Hn. rewrite Z.eqb_refl in Hn. discriminate.
Qed.

(** X25: a signed-in caller who is not the coach of the game gets no
    name, whatever the game and the profiles are; nor does anyone for a
    game that is not in the store. *)
Theorem umpire_name_refused_to_others
        (st : store) (profiles : list profile_row) (uid gid : uuid) :
  (forall g, In g (games st) -> id g = gid -> coach_id g <> uid) ->
  get_assigned_umpire_name st profiles (Some uid) gid = None.
Proof.
  intros Hother. unfold get_assigned_umpire_name.
  destruct (game_by_id st gid) as [g|] eqn:Hg; [|reflexivity].
  apply game_by_id_found in Hg. destruct Hg as [Hin Hid].
  simpl. destruct (Z.eqb_spec (coach_id g) uid) as [Heq|Hne].
  - exfalso. apply (Hother g Hin Hid Heq).
  - reflexivity.
Qed.

Lemma umpire_name_refused_to_others_witness :
  get_assigned_umpire_name (store_of [taken_game] [])
                           [mk_profile 7 (Some "Uma Pire")] (Some 8) 1
  = None.
Proof.
  apply umpire_name_refused_to_others.
  intros g [<-|[]] _. simpl. lia.
Defined.

(** X26: the coach of a game gets the [full_name] of the profile of the
    umpire assigned to it, and nothing when no umpire is assigned or the
    umpire has no profile. *)
Theorem umpire_name_for_the_coach
        (st : store) (profiles : list profile_row) (g : game_row) :
  In g (games st) ->
  (forall g', In g' (games st) -> id g' = id g -> g' = g) ->
  get_assigned_umpire_name st profiles (Some (coach_id g)) (id g)
  = match assigned_umpire_id g with
    | Some ump =>
        match find (fun p => profile_id p =? ump) profiles with
        | Some p => full_name p
        | None => None
        end
    | None => None
    end.
Proof.
  intros Hin Huniq. unfold get_assigned_umpire_name.
  rewrite (game_by_id_unique st g Hin Huniq). simpl.
  rewrite Z.eqb_refl. reflexivity.
Qed.

Lemma umpire_name_for_the_coach_witness :
  get_assigned_umpire_name (store_of [taken_game] [])
                           [mk_profile 7 (Some "Uma Pire")] (Some 10) 1
  = Some "Uma Pire".
Proof.
  apply (umpire_name_for_the_coach
           (store_of [taken_game] []) [mk_profile 7 (Some "Uma Pire")]
           taken_game).
  - left. reflexivity.
  - intros g' [<-|[]] _. reflexivity.
Defined.

(** X27: the ownership test compares with [auth.uid()] by [!=], which
    is not true when the caller has no identity: such a caller is
    answered like the coach of the game. *)
Theorem umpire_name_without_identity
        (st : store) (profiles : list profile_row) (g : game_row) :
  In g (games st) ->
  (forall g', In g' (games st) -> id g' = id g -> g' = g) ->
  get_assigned_umpire_name st profiles None (id g)
  = get_assigned_umpire_name st profiles (Some (coach_id g)) (id g).
Proof.
  intros Hin Huniq. unfold get_assigned_umpire_name.
  rewrite (game_by_id_unique st g Hin Huniq). simpl.
  rewrite Z.eqb_refl. reflexivity.
Qed.

Lemma umpire_name_without_identity_witness :
  get_assigned_umpire_name (store_of [taken_game] [])
                           [mk_profile 7 (Some "Uma Pire")] None 1
  = get_assigned_umpire_name (store_of [taken_game] [])
                             [mk_profile 7 (Some "Uma Pire")] (Some 10) 1.
Proof.
  apply (umpire_name_without_identity
           (store_of [taken_game] []) [mk_profile 7 (Some "Uma Pire")]
           taken_game).
  - left. reflexivity.
  - intros g' [<-|[]] _. reflexivity.
Defined.

End UmpireName.


(** ** What no handler does *)

Section NothingIsLost.
Import Schema Lifecycle History Samples.

Lemma same_description_refl (g : game_row) : same_description g g.
Proof. repeat split. Qed.

Lemma same_description_trans (a b c : game_row) :
  same_description a b -> same_description b c -> same_description a c.
Proof.
  unfold same_description.
  intros (H1 & H2 & H3 & H4 & H5 & H6 & H7) (K1 & K2 & K3 & K4 & K5 & K6 & K7).
  repeat split; congruence.
Qed.

Lemma Forall2_same_refl (l : list game_row) : Forall2 same_description l l.
Proof.
  induction l; constructor; [apply same_description_refl|assumption].
Qed.

Lemma Forall2_same_trans (l1 l2 l3 : list game_row) :
  Forall2 same_description l1 l2 -> Forall2 same_description l2 l3 ->
  Forall2 same_description l1 l3.
Proof.
  intros H12. revert l3.
  induction H12 as [|a b l1 l2 Hab _ IH]; intros l3 H23;
    inversion H23; subst; constructor.
  - eapply same_description_trans; eassumption.
  - apply IH. assumption.
Qed.

Lemma games_kept_same (st st' : store) :
  games st' = games st -> games_kept st st'.
Proof.
  intros H. exists (games st), []. rewrite app_nil_r.
  split; [exact H|apply Forall2_same_refl].
Qed.

Lemma games_kept_trans (st1 st2 st3 : store) :
  games_kept st1 st2 -> games_kept st2 st3 -> games_kept st1 st3.
Proof.
  intros (k1 & a1 & H1 & F1) (k2 & a2 & H2 & F2).
  rewrite H1 in F2. apply Forall2_app_inv_l in F2.
  destruct F2 as (k2a & k2b & Fa & Fb & ->).
  exists k2a, (k2b ++ a2)%list. split.
  - rewrite H2, app_assoc. reflexivity.
  - eapply Forall2_same_trans; eassumption.
Qed.

Lemma games_update_kept (st : store) (uid : uuid) (p : games_patch)
      (gid : uuid) :
  games_kept st (fst (games_update st uid p gid)).
Proof.
  unfold games_update.
  destruct (forallb _ _); [|apply games_kept_same; reflexivity].
  simpl. eexists. exists []. rewrite app_nil_r. split; [reflexivity|].
  induction (games st) as [|g rest IH]; simpl; constructor; [|exact IH].
  destruct (games_update_target st uid gid g);
    [repeat split|apply same_description_refl].
Qed.

Lemma games_insert_kept (st : store) (uid coach_sel : uuid) (date : Z)
      (loc opp : string) (s : game_status) :
  games_kept st (fst (games_insert st uid coach_sel date loc opp s)).
Proof.
  unfold games_insert.
  destruct (games_insert_check _ _ _); [|apply games_kept_same; reflexivity].
  simpl. eexists. eexists. split; [reflexivity|apply Forall2_same_refl].
Qed.

(** Follow one store call, carrying what is kept since [st0]. *)
Ltac keep st0 Hk :=
  match goal with
  | |- context [ratings_insert ?a ?b ?c ?d ?e ?f ?g ?h] =>
      let H := fresh "Hkept" in
      pose proof (games_kept_trans
                    st0 a _ Hk
                    (games_kept_same
                       a _ (ratings_insert_games a b c d e f g h))) as H;
      destruct (ratings_insert a b c d e f g h) as [? [?|]]
  | |- context [games_update ?a ?b ?c ?d] =>
      let H := fresh "Hkept" in
      pose proof (games_kept_trans st0 a _ Hk (games_update_kept a b c d))
        as H;
      destruct (games_update a b c d) as [? [?|]]
  | |- context [games_insert ?a ?b ?c ?d ?e ?f ?g] =>
      let H := fresh "Hkept" in
      pose proof (games_kept_trans
                    st0 a _ Hk (games_insert_kept a b c d e f g)) as H;
      destruct (games_insert a b c d e f g) as [? [?|?]]
  | |- context [requests_insert ?a ?b ?c ?d ?e] =>
      let H := fresh "Hkept" in
      pose proof (games_kept_trans
                    st0 a _ Hk
                    (games_kept_same
                       a _ (requests_insert_games a b c d e))) as H;
      destruct (requests_insert a b c d e) as [? [?|]]
  | |- context [leads_insert ?a ?b ?c ?d ?e ?f ?g ?h] =>
      let H := fresh "Hkept" in
      pose proof (games_kept_trans
                    st0 a _ Hk
                    (games_kept_same
                       a _ (leads_insert_games a b c d e f g h))) as H;
      destruct (leads_insert a b c d e f g h) as [? [?|]]
  end; simpl in *.

Lemma bulk_fold_kept (env : JsDate.js_env) (uid coach_sel : uuid)
      (st0 : store) (l : list BulkUploadGamesDialog.ParsedGame)
      (acc : store * nat * nat) :
  games_kept st0 (fst (fst acc)) ->
  games_kept st0
    (fst (fst (fold_left (BulkUploadGamesDialog.create_one env uid coach_sel)
                         l acc))).
Proof.
  revert acc. induction l as [|g rest IH]; intros acc Hk; [exact Hk|].
  simpl. apply IH. destruct acc as [[st ok] ko]. simpl in Hk.
  unfold BulkUploadGamesDialog.create_one.
  destruct (JsDate.date_parse env _) as [date|]; [|exact Hk].
  keep st0 Hk; [|exact Hkept].
  keep st0 Hkept; exact Hkept0.
Qed.

(** X28: no handler deletes a game or changes what describes it.  After
    any handler every game that was in the store is still there, at its
    place, with its identity, coach, date, venue, opponent and
    coordinates; games a handler adds come after them. *)
Theorem games_are_never_lost (op : operation) (st : store) :
  games_kept st (fst (run op st)).
Proof.
  assert (Hk : games_kept st st) by (apply games_kept_same; reflexivity).
  destruct op as [user gameDateTime loc opp
                 |uid selectedCoachId gameDateTime loc opp
                 |env uid selectedCoachId parsedGames
                 |user myGames gameId gameDate gameLat gameLng
                 |now user currentGame score text noShow
                 |user currentGame gameCompleted name contact found note
                 |now user game score text
                 |now user game score text noShow]; simpl.
  - unfold RequestUmpireDialog.handleSubmit.
    destruct user as [uid|]; [|exact Hk].
    destruct gameDateTime as [date|]; [|exact Hk].
    keep st Hk; [|exact Hkept].
    keep st Hkept; exact Hkept0.
  - unfold CreateGameRequestDialog.handleSubmit.
    destruct selectedCoachId as [sel|]; [|exact Hk].
    destruct gameDateTime as [date|]; [|exact Hk].
    keep st Hk; [|exact Hkept].
    keep st Hkept; exact Hkept0.
  - unfold BulkUploadGamesDialog.handleSubmit.
    destruct selectedCoachId as [sel|]; [|exact Hk].
    destruct (Nat.eqb _ 0); [exact Hk|].
    pose proof (bulk_fold_kept
                  env uid sel st
                  (filter BulkUploadGamesDialog.valid parsedGames)
                  (st, O, O) Hk) as Hfold.
    destruct (fold_left _ _ _) as [[st1 ok] ko]. simpl in Hfold.
    destruct (Nat.ltb 0 ok); exact Hfold.
  - unfold UmpireDashboard.handleAcceptGame.
    destruct user as [uid|]; [|exact Hk].
    destruct (UmpireDashboard.checkDoubleBooking _ _ _ _); [exact Hk|].
    keep st Hk; exact Hkept.
  - unfold PastGamesNotificationDialog.handleConfirmAndRate.
    destruct user as [uid|]; [|exact Hk].
    destruct currentGame as [game|]; [|exact Hk].
    destruct (negb noShow && (score =? 0)); [exact Hk|].
    keep st Hk; [exact Hkept|].
    keep st Hkept; [|exact Hkept0].
    destruct (negb _); exact Hkept0.
  - unfold PastPendingGamesDialog.handleSubmit.
    destruct currentGame as [game|]; [|exact Hk].
    destruct user as [uid|]; [|exact Hk].
    destruct gameCompleted as [[|]|].
    + keep st Hk; [exact Hkept|].
      keep st Hkept; exact Hkept0.
    + keep st Hk; exact Hkept.
    + keep st Hk; exact Hkept.
  - unfold RateUmpireDialog.handleSubmit_insert.
    destruct user as [uid|]; [|exact Hk].
    destruct (RateUmpireDialog.game_assigned_umpire_id game) as [ump|];
      [|exact Hk].
    destruct (score =? 0); [exact Hk|].
    keep st Hk; [|exact Hkept].
    destruct (String.eqb _ _); exact Hkept.
  - unfold RateUmpireDialog.handleSubmit.
    destruct user as [uid|]; [|exact Hk].
    destruct (RateUmpireDialog.game_assigned_umpire_id game) as [ump|];
      [|exact Hk].
    destruct (negb noShow && (score =? 0)); [exact Hk|].
    destruct (RateUmpireDialog.existing_rating game) as [existing|].
    + exact Hk.
    + keep st Hk; [|exact Hkept].
      destruct (String.eqb _ _); exact Hkept.
Qed.

(** X29: while every game is consistent (a provider only on assigned and
    completed games, and on every assigned one), the staff's list of
    games that need an umpire is the list of pending games. *)
Theorem games_needing_umpire_are_the_pending (st : store) :
  all_games provider_consistent st = true ->
  EmployeeDashboard.gamesNeedingUmpire (games st)
  = filter (fun g => game_status_eqb (status g) pending) (games st).
Proof.
  unfold all_games, EmployeeDashboard.gamesNeedingUmpire.
  intros Hall. apply filter_ext_in. intros g Hg.
  rewrite forallb_forall in Hall. specialize (Hall g Hg).
  unfold provider_consistent in Hall.
  destruct (status g), (assigned_umpire_id g); simpl in *;
    try reflexivity; discriminate.
Qed.

Lemma games_needing_umpire_are_the_pending_witness :
  all_games provider_consistent (store_of [open_game; taken_game] []) = true
  /\ EmployeeDashboard.gamesNeedingUmpire
       (games (store_of [open_game; taken_game] []))
     = [open_game].
Proof.
  split; [reflexivity|].
  rewrite (games_needing_umpire_are_the_pending
             (store_of [open_game; taken_game] []) eq_refl).
  reflexivity.
Defined.

End NothingIsLost.
